(** * libsysres: container-aware CPU and memory readings

    A shallow embedding of the Linux code paths of
    - lib/src/libsysres/memory.c and cpu.c  (module [Lib]),
    - tools/libsysres/memory.c              (module [Tools]),
    - deploy/monitor.c                      (module [Monitor]),
    together with the properties the specification states about them.

    The C functions read files, the environment and a few host queries and
    keep no state of their own, so each one is a function of a [sys_state]:
    the files that can be opened with their contents, the environment, and
    the answers of [get_nprocs], [getloadavg] and [sysinfo].  [float] values
    are IEEE-754 binary32 numbers ([spec_float] at precision 24), [long long]
    values are [Z] with the 64-bit wrap-around written out (C leaves signed
    overflow undefined; the statements that need exact values say when the
    results fit). *)

From Stdlib Require Import ZArith Lia Bool Ascii String List.
From Stdlib Require Import Floats.SpecFloat.
From Stdlib Require Import Numbers.DecimalString Numbers.DecimalZ.
From Stdlib Require Import Numbers.DecimalPos Numbers.DecimalN Numbers.DecimalFacts.
From stdpp Require Import gmap strings.

Local Open Scope string_scope.
Local Open Scope Z_scope.

(** ** Machine integers *)

Definition LLONG_MAX : Z := 9223372036854775807.
Definition LLONG_MIN : Z := -9223372036854775808.
Definition INT32_MAX : Z := 2147483647.
Definition INT32_MIN : Z := -2147483648.

(** Two's complement reduction to [w] bits, as a signed value. *)
Definition wrap (w : Z) (z : Z) : Z := (z + 2 ^ (w - 1)) mod 2 ^ w - 2 ^ (w - 1).

Definition wrap64 : Z -> Z := wrap 64.
Definition wrap32 : Z -> Z := wrap 32.

(** ** binary32 and binary64 values *)

Abbreviation float := spec_float (only parsing).
Abbreviation double := spec_float (only parsing).

Definition prec32 : Z := 24.
Definition emax32 : Z := 128.

Definition fzero : float := S754_zero false.
Definition fdiv : float -> float -> float := SFdiv prec32 emax32.
Definition flt : float -> float -> bool := SFltb.
Definition fle : float -> float -> bool := SFleb.

(** The conversion [(float)z] of an integer: round to nearest, ties to even. *)
Definition float_of_Z (z : Z) : float := binary_normalize prec32 emax32 z 0 false.

(** The conversion [(float)d] of a double. *)
Definition float_of_double (d : double) : float :=
  match d with
  | S754_finite s m e => binary_round prec32 emax32 s m e
  | _ => d
  end.

(** The literal [-1.0f]. *)
Definition fminus1 : float := float_of_Z (-1).

(** ** The C library functions the sources call *)

Module Libc.

Definition isspace (c : ascii) : bool :=
  let n := N_of_ascii c in
  (n =? 32)%N || ((9 <=? n)%N && (n <=? 13)%N).

Definition digit_of (c : ascii) : option Z :=
  let n := Z.of_N (N_of_ascii c) in
  if (48 <=? n) && (n <=? 57) then Some (n - 48) else None.

Definition isdigit (c : ascii) : bool :=
  match digit_of c with Some _ => true | None => false end.

Fixpoint skip_space (s : string) : string :=
  match s with
  | String c s' => if isspace c then skip_space s' else s
  | EmptyString => s
  end.

(** Value of the longest run of decimal digits [s] starts with, continuing
    the value [acc] read so far. *)
Fixpoint digits_value (s : string) (acc : Z) : Z :=
  match s with
  | String c s' =>
      match digit_of c with
      | Some d => digits_value s' (10 * acc + d)
      | None => acc
      end
  | EmptyString => acc
  end.

Fixpoint skip_digits (s : string) : string :=
  match s with
  | String c s' => if isdigit c then skip_digits s' else s
  | EmptyString => s
  end.

Definition starts_with_digit (s : string) : bool :=
  match s with
  | String c _ => isdigit c
  | EmptyString => false
  end.

(** An optional sign: is it a minus, and what follows it. *)
Definition scan_sign (s : string) : bool * string :=
  match s with
  | String "-" s' => (true, s')
  | String "+" s' => (false, s')
  | _ => (false, s)
  end.

Definition clamp64 (z : Z) : Z := Z.max LLONG_MIN (Z.min LLONG_MAX z).

Definition signed (neg : bool) (v : Z) : Z := if neg then - v else v.

(** [strtoll(s, NULL, 10)]: white space, an optional sign, decimal digits;
    0 when there is no digit, the nearest bound when out of range.
    [atoll] is the same function. *)
Definition strtoll (s : string) : Z :=
  let '(neg, body) := scan_sign (skip_space s) in
  clamp64 (signed neg (digits_value body 0)).

Definition atoll : string -> Z := strtoll.

(** One [%lld] (or [PRId64]) conversion of the scanf family: the value and
    the unread input, or [None] on a matching failure. *)
Definition scan_lld (s : string) : option (Z * string) :=
  let '(neg, body) := scan_sign (skip_space s) in
  if starts_with_digit body
  then Some (clamp64 (signed neg (digits_value body 0)), skip_digits body)
  else None.

(** [sscanf(s, "%lld %lld", &a, &b) == 2]. *)
Definition sscanf_lld_lld (s : string) : option (Z * Z) :=
  match scan_lld s with
  | Some (a, rest) =>
      match scan_lld (skip_space rest) with
      | Some (b, _) => Some (a, b)
      | None => None
      end
  | None => None
  end.

(** At most [n] leading characters of [s] that are not white space. *)
Fixpoint take_word (n : nat) (s : string) : string * string :=
  match n, s with
  | S n', String c s' =>
      if isspace c then (EmptyString, s)
      else let '(w, rest) := take_word n' s' in (String c w, rest)
  | _, _ => (EmptyString, s)
  end.

(** One [%63s] conversion: [None] at the end of the input. *)
Definition scan_s (width : nat) (s : string) : option (string * string) :=
  match take_word width (skip_space s) with
  | (EmptyString, _) => None
  | (w, rest) => Some (w, rest)
  end.

(** The bytes of [s] up to its first NUL: what a [char*] function sees. *)
Fixpoint cstr (s : string) : string :=
  match s with
  | String c s' => if Ascii.eqb c Ascii.zero then EmptyString else String c (cstr s')
  | EmptyString => EmptyString
  end.

(** [fread(buff, 1, n, fd)] on a freshly opened file: the bytes stored. *)
Definition fread (n : nat) (content : string) : string := substring 0 n content.

Fixpoint drop (n : nat) (s : string) : string :=
  match n, s with
  | S n', String _ s' => drop n' s'
  | _, _ => s
  end.

(** [strstr(hay, needle)]: the suffix of [hay] at the first occurrence. *)
Fixpoint strstr (hay needle : string) : option string :=
  if String.prefix needle hay then Some hay
  else match hay with
       | String _ hay' => strstr hay' needle
       | EmptyString => None
       end.

(** [strncmp(buff, lit, strlen(lit)) == 0] for a literal without NUL. *)
Definition strncmp_eq (buff lit : string) : bool := String.prefix lit buff.

(** [strcmp(a, b) == 0]. *)
Definition strcmp_eq (a b : string) : bool := String.eqb a b.

(** *** [strtof]

    [strtof(s, NULL)]: white space, an optional sign, then [inf], [nan], a
    hexadecimal or a decimal floating constant; the value is rounded to
    binary32.  When no conversion can be performed the result is zero. *)

Definition to_lower (c : ascii) : ascii :=
  let n := N_of_ascii c in
  if (65 <=? n)%N && (n <=? 90)%N then ascii_of_N (n + 32) else c.

(** Is the lower-case literal [lit] a prefix of [s], letter case aside? *)
Fixpoint prefix_ci (lit s : string) : bool :=
  match lit, s with
  | EmptyString, _ => true
  | String a lit', String b s' => Ascii.eqb a (to_lower b) && prefix_ci lit' s'
  | String _ _, EmptyString => false
  end.

Definition hex_digit_of (c : ascii) : option Z :=
  match digit_of c with
  | Some d => Some d
  | None =>
      let n := Z.of_N (N_of_ascii (to_lower c)) in
      if (97 <=? n) && (n <=? 102) then Some (n - 87) else None
  end.

Fixpoint hex_value (s : string) (acc : Z) : Z :=
  match s with
  | String c s' =>
      match hex_digit_of c with
      | Some d => hex_value s' (16 * acc + d)
      | None => acc
      end
  | EmptyString => acc
  end.

Fixpoint skip_hex (s : string) : string :=
  match s with
  | String c s' =>
      match hex_digit_of c with Some _ => skip_hex s' | None => s end
  | EmptyString => s
  end.

(** Number of characters consumed between [s] and its suffix [rest]. *)
Definition consumed (s rest : string) : nat :=
  (String.length s - String.length rest)%nat.

(** The exponent part introduced by the letter [mark]; 0 when there is none. *)
Definition scan_exponent (mark : ascii) (s : string) : Z :=
  match s with
  | String c s' =>
      if Ascii.eqb (to_lower c) mark then
        let '(neg, body) := scan_sign s' in
        if starts_with_digit body then signed neg (digits_value body 0) else 0
      else 0
  | EmptyString => 0
  end.

(** The binary32 nearest to [m * 10 ^ e], for [0 <= m]. *)
Definition float_of_decimal (neg : bool) (m e : Z) : float :=
  match m with
  | Zpos p =>
      if 0 <=? e then binary_round prec32 emax32 neg (Z.to_pos (Zpos p * 10 ^ e)) 0
      else SFdiv prec32 emax32 (S754_finite neg p 0)
                               (S754_finite false (Z.to_pos (10 ^ (- e))) 0)
  | _ => S754_zero neg
  end.

(** The binary32 nearest to [m * 2 ^ e], for [0 <= m]. *)
Definition float_of_binary (neg : bool) (m e : Z) : float :=
  match m with
  | Zpos p => binary_round prec32 emax32 neg p e
  | _ => S754_zero neg
  end.

Definition strtof_decimal (neg : bool) (s : string) : option float :=
  let mi := digits_value s 0 in
  let s1 := skip_digits s in
  let ni := consumed s s1 in
  let '(m, nf, s2) :=
    match s1 with
    | String "." f => (digits_value f mi, consumed f (skip_digits f), skip_digits f)
    | _ => (mi, 0%nat, s1)
    end in
  if (ni + nf =? 0)%nat then None
  else Some (float_of_decimal neg m (scan_exponent "e" s2 - Z.of_nat nf)).

Definition strtof_hex (neg : bool) (s : string) : option float :=
  let mi := hex_value s 0 in
  let s1 := skip_hex s in
  let ni := consumed s s1 in
  let '(m, nf, s2) :=
    match s1 with
    | String "." f => (hex_value f mi, consumed f (skip_hex f), skip_hex f)
    | _ => (mi, 0%nat, s1)
    end in
  if (ni + nf =? 0)%nat then None
  else Some (float_of_binary neg m (scan_exponent "p" s2 - 4 * Z.of_nat nf)).

(** The converted value, or [None] when no conversion is performed. *)
Definition strtof_conv (s : string) : option float :=
  let '(neg, body) := scan_sign (skip_space s) in
  if prefix_ci "inf" body then Some (S754_infinity neg)
  else if prefix_ci "nan" body then Some S754_nan
  else
    let hex := if prefix_ci "0x" body then strtof_hex neg (drop 2 body) else None in
    match hex with
    | Some v => Some v
    | None => strtof_decimal neg body
    end.

Definition strtof (s : string) : float :=
  match strtof_conv s with
  | Some v => v
  | None => fzero
  end.

(** *** [fgets]

    [fgets(buffer, n, fp)] stores at most [n - 1] characters and stops after
    a newline; it fails at the end of the file. *)

Fixpoint fgets_take (room : nat) (s : string) : string * string :=
  match room, s with
  | S room', String c s' =>
      if Ascii.eqb c "010" then (String c EmptyString, s')
      else let '(line, rest) := fgets_take room' s' in (String c line, rest)
  | _, _ => (EmptyString, s)
  end.

(** The characters stored and the unread input; [None] for [NULL]. *)
Definition fgets (n : nat) (s : string) : option (string * string) :=
  match s with
  | EmptyString => None
  | String _ _ => Some (fgets_take (n - 1) s)
  end.

End Libc.

(** ** What the functions read *)

Record sys_state := {
  fs : gmap string string;        (* the files [fopen] can open, with their bytes *)
  env : gmap string string;       (* [getenv] *)
  nprocs : Z;                     (* [get_nprocs()] *)
  loadavg : option spec_float;    (* [getloadavg(load, 1)]: the 1-minute average *)
  totalram : Z;                   (* [sysinfo]: unsigned long *)
  freeram : Z;                    (* [sysinfo]: unsigned long *)
  mem_unit : Z                    (* [sysinfo]: unsigned int *)
}.

Definition fopen (st : sys_state) (path : string) : option string := fs st !! path.
Definition getenv (st : sys_state) (name : string) : option string := env st !! name.

(** ** lib/src/libsysres *)

Module Lib.
Import Libc.

(** *** memory.c *)

Definition get_entry (name buff : string) : Z :=
  match strstr buff name with
  | None => 0
  | Some hit => strtoll (drop (String.length name) hit)
  end.

Definition read_cgroup_value (st : sys_state) (path : string) : Z :=
  match fopen st path with
  | None => -1
  | Some content =>
      let raw := fread 63 content in
      if (String.length raw =? 0)%nat then -1
      else
        let buff := cstr raw in
        if strncmp_eq buff "max" then -1
        else strtoll buff
  end.

(** The pair [( *total, *used )] the function stores. *)
Definition get_proc_meminfo (st : sys_state) : Z * Z :=
  match fopen st "/proc/meminfo" with
  | None => (0, 0)
  | Some content =>
      let raw := fread 4095 content in
      if (String.length raw =? 0)%nat then (0, 0)
      else
        let buff := cstr raw in
        let total_kb := get_entry "MemTotal:" buff in
        let free_kb := get_entry "MemFree:" buff in
        let buffers_kb := get_entry "Buffers:" buff in
        let cached_kb := get_entry "Cached:" buff in
        (wrap64 (total_kb * 1024),
         wrap64 (wrap64 (wrap64 (wrap64 (total_kb - free_kb) - buffers_kb) - cached_kb) * 1024))
  end.

Definition has_cgroup_memory_limit (st : sys_state) : bool :=
  let limit := read_cgroup_value st "/sys/fs/cgroup/memory.max" in
  0 <? limit.

Definition is_container_env (st : sys_state) : bool :=
  has_cgroup_memory_limit st.

Definition get_memory_limit_bytes (st : sys_state) : Z :=
  let cgroup_limit := read_cgroup_value st "/sys/fs/cgroup/memory.max" in
  if 0 <? cgroup_limit then cgroup_limit
  else fst (get_proc_meminfo st).

Definition get_memory_used_bytes (st : sys_state) : Z :=
  let fallback := snd (get_proc_meminfo st) in
  if has_cgroup_memory_limit st then
    let current := read_cgroup_value st "/sys/fs/cgroup/memory.current" in
    if 0 <=? current then current else fallback
  else fallback.

Definition get_memory_usage (st : sys_state) : float :=
  let limit := get_memory_limit_bytes st in
  let used := get_memory_used_bytes st in
  if limit <=? 0 then fzero
  else fdiv (float_of_Z used) (float_of_Z limit).

(** *** cpu.c *)

Definition get_cgroup_cpu_limit (st : sys_state) : float :=
  match fopen st "/sys/fs/cgroup/cpu.max" with
  | None => fminus1
  | Some content =>
      let raw := fread 63 content in
      if (String.length raw =? 0)%nat then fminus1
      else
        let buff := cstr raw in
        if strncmp_eq buff "max" then fminus1
        else
          match sscanf_lld_lld buff with
          | None => fminus1
          | Some (quota, period) =>
              if period <=? 0 then fminus1
              else fdiv (float_of_Z quota) (float_of_Z period)
          end
  end.

Definition get_env_cpu_limit (st : sys_state) : float :=
  match getenv st "SYSRES_CPU_CORES" with
  | None => fminus1
  | Some env_val =>
      let cores := strtof env_val in
      if fle cores fzero then fminus1 else cores
  end.

Definition get_cpu_limit_cores (st : sys_state) : float :=
  let env_limit := get_env_cpu_limit st in
  if flt fzero env_limit then env_limit
  else
    let cgroup_limit := get_cgroup_cpu_limit st in
    if flt fzero cgroup_limit then cgroup_limit
    else float_of_Z (nprocs st).

(** [load[0]] after [getloadavg(load, 1)]: the array starts as [{0}]. *)
Definition load0 (st : sys_state) : double :=
  match loadavg st with
  | Some d => d
  | None => S754_zero false
  end.

(** The divisor [get_cpu_load] ends up with. *)
Definition cpu_load_divisor (st : sys_state) : float :=
  let cpu_limit := get_cpu_limit_cores st in
  if fle cpu_limit fzero then float_of_Z (nprocs st) else cpu_limit.

Definition get_cpu_load (st : sys_state) : float :=
  fdiv (float_of_double (load0 st)) (cpu_load_divisor st).

End Lib.

(** ** tools/libsysres/memory.c *)

Module Tools.

(** [totalram], [freeram] and [mem_unit] are unsigned: the products are
    taken modulo [2 ^ 64] and then read as [long long]. *)
Definition get_memory_usage (st : sys_state) : float :=
  let total_memory := wrap64 (totalram st * mem_unit st) in
  let used_memory := wrap64 ((totalram st - freeram st) * mem_unit st) in
  fdiv (float_of_Z used_memory) (float_of_Z total_memory).

End Tools.

(** ** deploy/monitor.c *)

Module Monitor.
Import Libc.

(** What a block of [get_cpu_limit_millicores] does: return a value, go on
    to the next source, or close a stream that is already closed. *)
Inductive step :=
| Return (v : Z)
| Continue
| DoubleClose.

(** [(int32_t)((quota * 1000) / period)]. *)
Definition millicores (quota period : Z) : Z :=
  wrap32 (Z.quot (wrap64 (quota * 1000)) period).

Definition unified_millicores (st : sys_state) : step :=
  match fopen st "/sys/fs/cgroup/cpu.max" with
  | None => Continue
  | Some content =>
      match scan_s 63 content with
      | None => Continue
      | Some (q, rest) =>
          match scan_s 63 rest with
          | None => Continue
          | Some (p, _) =>
              let quota_str := cstr q in
              let period_str := cstr p in
              if strcmp_eq quota_str "max" then Return (-1)
              else
                let quota := atoll quota_str in
                let period := atoll period_str in
                if 0 <? period then Return (millicores quota period)
                else Continue
          end
      end
  end.

Definition quota_paths : list string :=
  [ "/sys/fs/cgroup/cpu/cpu.cfs_quota_us";
    "/sys/fs/cgroup/cpu,cpuacct/cpu.cfs_quota_us" ].

Definition period_paths : list string :=
  [ "/sys/fs/cgroup/cpu/cpu.cfs_period_us";
    "/sys/fs/cgroup/cpu,cpuacct/cpu.cfs_period_us" ].

(** One round of the loop over the split-hierarchy mount points. *)
Definition legacy_variant (st : sys_state) (quota_path period_path : string) : step :=
  match fopen st quota_path, fopen st period_path with
  | Some qc, Some pc =>
      match scan_lld qc with
      | None => Continue
      | Some (quota, _) =>
          match scan_lld pc with
          | None => Continue
          | Some (period, _) =>
              if quota =? -1 then Return (-1)
              else if 0 <? period then Return (millicores quota period)
              else DoubleClose
          end
      end
  | _, _ => Continue
  end.

Fixpoint legacy_loop (st : sys_state) (paths : list (string * string)) : option Z :=
  match paths with
  | [] => Some (-1)
  | (quota_path, period_path) :: rest =>
      match legacy_variant st quota_path period_path with
      | Return v => Some v
      | Continue => legacy_loop st rest
      | DoubleClose => None
      end
  end.

(** [None]: the call has no defined result (a stream was closed twice). *)
Definition get_cpu_limit_millicores (st : sys_state) : option Z :=
  match unified_millicores st with
  | Return v => Some v
  | Continue => legacy_loop st (combine quota_paths period_paths)
  | DoubleClose => None
  end.

Definition get_cgroup_version (st : sys_state) : Z :=
  match fopen st "/sys/fs/cgroup/cpu.stat" with
  | Some _ => 2
  | None =>
      match fopen st "/sys/fs/cgroup/cpuacct/cpuacct.usage" with
      | Some _ => 1
      | None => 0
      end
  end.

(** The [while (fgets ...)] loop of [get_cpu_usage_micros]: the buffer at
    the [break], if a line starts with [usage_usec].  Every round reads at
    least one character, so [fuel] rounds are enough for [fuel] characters. *)
Fixpoint usage_usec_line (fuel : nat) (s : string) : option string :=
  match fuel with
  | O => None
  | S fuel' =>
      match fgets 256 s with
      | None => None
      | Some (line, rest) =>
          let buffer := cstr line in
          if strncmp_eq buffer "usage_usec" then Some buffer
          else usage_usec_line fuel' rest
      end
  end.

(** [micros] after [cpu.stat] has been read: [sscanf(buffer, "usage_usec
    %lld", &micros)] on the line found, 0 when nothing is stored. *)
Definition cpu_stat_micros (content : string) : Z :=
  match usage_usec_line (String.length content) content with
  | Some buffer =>
      match scan_lld (drop 10 buffer) with
      | Some (micros, _) => micros
      | None => 0
      end
  | None => 0
  end.

Definition get_cpu_usage_micros (st : sys_state) : Z :=
  let micros :=
    match fopen st "/sys/fs/cgroup/cpu.stat" with
    | Some content => cpu_stat_micros content
    | None => 0
    end in
  if 0 <? micros then micros
  else
    match fopen st "/sys/fs/cgroup/cpuacct/cpuacct.usage" with
    | Some content =>
        match scan_lld content with
        | Some (nanos, _) => Z.quot nanos 1000
        | None => micros
        end
    | None => micros
    end.

End Monitor.

(** ** The macOS branches

    What [host_page_size], [host_statistics64] and [sysctlbyname] answer;
    [None] stands for a result other than [KERN_SUCCESS]. *)

Record vm_statistics := {
  free_count : Z;       (* natural_t *)
  active_count : Z;
  inactive_count : Z;
  wire_count : Z
}.

Record mach_state := {
  page_size : option Z;                 (* vm_size_t *)
  vm_stats : option vm_statistics
}.

(** lib/src/libsysres/memory.c under [__MACH__]. *)
Module LibMac.

(** The pair [( *total, *used )] the function stores. *)
Definition get_macos_memory (ms : mach_state) : Z * Z :=
  match page_size ms, vm_stats ms with
  | Some page, Some stats =>
      let free_memory := wrap64 (free_count stats * page) in
      let used :=
        wrap64 (wrap64 (wrap64 (active_count stats + inactive_count stats)
                        + wire_count stats) * page) in
      (wrap64 (free_memory + used), used)
  | _, _ => (0, 0)
  end.

Definition is_container_env (ms : mach_state) : bool := false.

Definition get_memory_limit_bytes (ms : mach_state) : Z := fst (get_macos_memory ms).

Definition get_memory_used_bytes (ms : mach_state) : Z := snd (get_macos_memory ms).

Definition get_memory_usage (ms : mach_state) : float :=
  let '(total, used) := get_macos_memory ms in
  if total =? 0 then fzero
  else fdiv (float_of_Z used) (float_of_Z total).

End LibMac.

(** tools/libsysres/memory.c under [__MACH__]. *)
Module ToolsMac.

Definition get_memory_usage (ms : mach_state) : float :=
  let '(total_memory, used_memory) :=
    match page_size ms, vm_stats ms with
    | Some page, Some stats =>
        let free_memory := wrap64 (free_count stats * page) in
        let used_memory :=
          wrap64 (wrap64 (wrap64 (active_count stats + inactive_count stats)
                          + wire_count stats) * page) in
        (wrap64 (free_memory + used_memory), used_memory)
    | _, _ => (0, 0)
    end in
  if (used_memory =? 0) || (total_memory =? 0) then float_of_Z 0
  else fdiv (float_of_Z used_memory) (float_of_Z total_memory).

End ToolsMac.

(** ** Inputs and scenarios *)

(** The decimal rendering of an integer, as the kernel writes it. *)
Definition dec (z : Z) : string := NilZero.string_of_int (Z.to_int z).

Definition LF : string := String "010" EmptyString.

(** The content of [cpu.max] for a bounded quota: ["quota period\n"]. *)
Definition cpu_max_tail (period : Z) : string := " " ++ dec period ++ LF.

Definition cpu_max_text (quota period : Z) : string :=
  dec quota ++ cpu_max_tail period.

Definition in_llong (z : Z) : Prop := LLONG_MIN <= z <= LLONG_MAX.

Fixpoint spaces (n : nat) : string :=
  match n with
  | O => EmptyString
  | S n' => String " " (spaces n')
  end.

(** One line of [/proc/meminfo]: the key with its colon, padding, the
    value, the unit. *)
Definition meminfo_line (key : string) (pad : nat) (kb : Z) : string :=
  key ++ spaces pad ++ dec kb ++ " kB" ++ LF.

(** The first lines of [/proc/meminfo] as Linux writes them. *)
Record meminfo_head := {
  mem_total : Z; mem_free : Z; mem_available : Z; buffers : Z; cached : Z;
  pad_total : nat; pad_free : nat; pad_available : nat; pad_buffers : nat;
  pad_cached : nat
}.

Definition meminfo_text (m : meminfo_head) (tail : string) : string :=
  meminfo_line "MemTotal:" (pad_total m) (mem_total m)
  ++ meminfo_line "MemFree:" (pad_free m) (mem_free m)
  ++ meminfo_line "MemAvailable:" (pad_available m) (mem_available m)
  ++ meminfo_line "Buffers:" (pad_buffers m) (buffers m)
  ++ meminfo_line "Cached:" (pad_cached m) (cached m)
  ++ tail.

Definition meminfo_values_fit (m : meminfo_head) : Prop :=
  in_llong (mem_total m) /\ in_llong (mem_free m) /\ in_llong (mem_available m)
  /\ in_llong (buffers m) /\ in_llong (cached m).

(** The length of the five lines. *)
Definition meminfo_head_length (m : meminfo_head) : nat :=
  String.length (meminfo_text m EmptyString).

(** Is [k] a character a rendered integer cannot contain? *)
Definition not_in_numbers (k : ascii) : bool :=
  negb (Libc.isdigit k) && negb (Ascii.eqb k "-").

(** A host with [n] cores on which none of the files can be opened. *)
Definition bare_host (n : Z) : sys_state :=
  {| fs := ∅; env := ∅; nprocs := n; loadavg := None;
     totalram := 0; freeram := 0; mem_unit := 1 |}.

Definition with_file (path content : string) (st : sys_state) : sys_state :=
  {| fs := <[path := content]> (fs st); env := env st; nprocs := nprocs st;
     loadavg := loadavg st; totalram := totalram st; freeram := freeram st;
     mem_unit := mem_unit st |}.

Definition setenv (name value : string) (st : sys_state) : sys_state :=
  {| fs := fs st; env := <[name := value]> (env st); nprocs := nprocs st;
     loadavg := loadavg st; totalram := totalram st; freeram := freeram st;
     mem_unit := mem_unit st |}.

Definition unsetenv (name : string) (st : sys_state) : sys_state :=
  {| fs := fs st; env := delete name (env st); nprocs := nprocs st;
     loadavg := loadavg st; totalram := totalram st; freeram := freeram st;
     mem_unit := mem_unit st |}.

Definition with_sysinfo (total free unit : Z) (st : sys_state) : sys_state :=
  {| fs := fs st; env := env st; nprocs := nprocs st; loadavg := loadavg st;
     totalram := total; freeram := free; mem_unit := unit |}.

Definition with_loadavg (load : double) (st : sys_state) : sys_state :=
  {| fs := fs st; env := env st; nprocs := nprocs st; loadavg := Some load;
     totalram := totalram st; freeram := freeram st; mem_unit := mem_unit st |}.

(** A container with a 1 GiB memory limit and nothing charged to it. *)
Definition idle_container : sys_state :=
  with_file "/sys/fs/cgroup/memory.max" ("1073741824" ++ LF)
    (with_file "/sys/fs/cgroup/memory.current" ("0" ++ LF) (bare_host 4)).

(** The same container when [memory.current] cannot be opened. *)
Definition container_without_current : sys_state :=
  with_file "/sys/fs/cgroup/memory.max" ("1073741824" ++ LF)
    (with_file "/proc/meminfo" ("MemTotal: 4096 kB" ++ LF ++ "MemFree: 1024 kB" ++ LF)
       (bare_host 4)).

(** Four host cores, no CPU ceiling. *)
Definition unlimited_cpu : sys_state :=
  with_file "/sys/fs/cgroup/cpu.max" ("max 100000" ++ LF) (bare_host 4).

(** Eight host cores, a ceiling of four. *)
Definition four_core_quota : sys_state :=
  with_file "/sys/fs/cgroup/cpu.max" (cpu_max_text 400000 100000) (bare_host 8).

(** A quota the kernel never writes, and one of three million cores. *)
Definition negative_quota : sys_state :=
  with_file "/sys/fs/cgroup/cpu.max" (cpu_max_text (-1) 3000) (bare_host 4).

Definition huge_quota : sys_state :=
  with_file "/sys/fs/cgroup/cpu.max" (cpu_max_text 3000000000 1000) (bare_host 4).

(** A split hierarchy whose second mount point reports no ceiling. *)
Definition legacy_unlimited_cpu : sys_state :=
  with_file "/sys/fs/cgroup/cpu,cpuacct/cpu.cfs_quota_us" ("-1" ++ LF)
    (with_file "/sys/fs/cgroup/cpu,cpuacct/cpu.cfs_period_us" ("100000" ++ LF)
       (bare_host 4)).

Definition meminfo_example : string :=
  "MemTotal:        2000000 kB" ++ LF ++
  "MemFree:          500000 kB" ++ LF ++
  "Buffers:          100000 kB" ++ LF ++
  "Cached:           400000 kB" ++ LF.

Definition meminfo_host : sys_state :=
  with_file "/proc/meminfo" meminfo_example (bare_host 4).

(** The head of [/proc/meminfo] on a 16 GB machine. *)
Definition linux_meminfo : meminfo_head :=
  {| mem_total := 16265564; mem_free := 8123400; mem_available := 12000000;
     buffers := 412000; cached := 3120500;
     pad_total := 7; pad_free := 9; pad_available := 3; pad_buffers := 10;
     pad_cached := 10 |}.

Definition linux_host : sys_state :=
  with_file "/proc/meminfo"
    (meminfo_text linux_meminfo ("SwapCached:            0 kB" ++ LF)) (bare_host 4).



(** ** Auxiliary notions for the proofs *)

(** The bytes of [/proc/meminfo] that [get_proc_meminfo] searches. *)
Definition meminfo_buffer (st : sys_state) : string :=
  match fopen st "/proc/meminfo" with
  | Some content => Libc.cstr (Libc.fread 4095 content)
  | None => EmptyString
  end.

(** Strictly positive binary32 values. *)
Definition fpositive (v : float) : bool :=
  match v with
  | S754_finite false _ _ | S754_infinity false => true
  | _ => false
  end.

(** Characters a floating constant, [inf] or [nan] can start with. *)
Definition numeric_start (c : ascii) : bool :=
  Libc.isdigit c || Ascii.eqb c "." || Ascii.eqb (Libc.to_lower c) "i"
  || Ascii.eqb (Libc.to_lower c) "n".

(** No number can be read from [s]: after white space and an optional sign
    comes the end of the string or a character no number starts with. *)
Definition non_numeric (s : string) : bool :=
  match snd (Libc.scan_sign (Libc.skip_space s)) with
  | String c _ => negb (numeric_start c)
  | EmptyString => true
  end.

(** Number of binary digits of a mantissa. *)
Definition digits (m : positive) : nat := Pos.to_nat (digits2_pos m).

Fixpoint all_digits (s : string) : bool :=
  match s with
  | String c s' => Libc.isdigit c && all_digits s'
  | EmptyString => true
  end.

(** Can a [%s] word end in front of [s]? *)
Definition word_end (s : string) : bool :=
  match s with
  | String c _ => Libc.isspace c
  | EmptyString => true
  end.

Definition minus (neg : bool) : string := if neg then "-" else EmptyString.

(** Value of a decimal numeral read after the value [acc]. *)
Fixpoint uint_acc (d : Decimal.uint) (acc : Z) : Z :=
  match d with
  | Decimal.Nil => acc
  | Decimal.D0 l => uint_acc l (10 * acc)
  | Decimal.D1 l => uint_acc l (10 * acc + 1)
  | Decimal.D2 l => uint_acc l (10 * acc + 2)
  | Decimal.D3 l => uint_acc l (10 * acc + 3)
  | Decimal.D4 l => uint_acc l (10 * acc + 4)
  | Decimal.D5 l => uint_acc l (10 * acc + 5)
  | Decimal.D6 l => uint_acc l (10 * acc + 6)
  | Decimal.D7 l => uint_acc l (10 * acc + 7)
  | Decimal.D8 l => uint_acc l (10 * acc + 8)
  | Decimal.D9 l => uint_acc l (10 * acc + 9)
  end.

(** ** Further inputs and notions *)

(** A container whose memory is used up. *)
Definition full_container : sys_state :=
  with_file "/sys/fs/cgroup/memory.max" ("536870912" ++ LF)
    (with_file "/sys/fs/cgroup/memory.current" ("536870912" ++ LF) (bare_host 2)).

(** A container with 512 MiB of 1 GiB in use, on a host whose [/proc/meminfo]
    says otherwise. *)
Definition half_full_container : sys_state :=
  with_file "/sys/fs/cgroup/memory.max" ("1073741824" ++ LF)
    (with_file "/sys/fs/cgroup/memory.current" ("536870912" ++ LF) meminfo_host).

(** A limit no [long long] can hold. *)
Definition huge_memory_max : sys_state :=
  with_file "/sys/fs/cgroup/memory.max" (dec (10 ^ 30) ++ LF) (bare_host 4).

(** The page counts are 32-bit numbers; page sizes are 4 or 16 KiB, far
    below [2 ^ 29]. *)
Definition mach_values_fit (ms : mach_state) : Prop :=
  match page_size ms, vm_stats ms with
  | Some page, Some stats =>
      0 <= page <= 2 ^ 29
      /\ 0 <= free_count stats < 2 ^ 32
      /\ 0 <= active_count stats < 2 ^ 32
      /\ 0 <= inactive_count stats < 2 ^ 32
      /\ 0 <= wire_count stats < 2 ^ 32
  | _, _ => True
  end.

(** A Mac with 16 KiB pages: 100 free pages, 100 in use. *)
Definition mac_host : mach_state :=
  {| page_size := Some 16384;
     vm_stats := Some {| free_count := 100; active_count := 50;
                         inactive_count := 30; wire_count := 20 |} |}.

(** A Mac on which nothing is in use yet. *)
Definition idle_mac_host : mach_state :=
  {| page_size := Some 16384;
     vm_stats := Some {| free_count := 100; active_count := 0;
                         inactive_count := 0; wire_count := 0 |} |}.

Fixpoint no_newline (s : string) : bool :=
  match s with
  | String c s' => negb (Ascii.eqb c "010") && no_newline s'
  | EmptyString => true
  end.

(** A line of [cpu.stat] that fits the buffer of 256 bytes and is not the
    [usage_usec] one. *)
Definition other_stat_line (l : string) : bool :=
  no_newline l && (String.length l <=? 254)%nat
  && negb (String.prefix "usage_usec" l).

Fixpoint stat_lines (ls : list string) : string :=
  match ls with
  | [] => EmptyString
  | l :: ls' => l ++ LF ++ stat_lines ls'
  end.

(** [cpu.stat] with the line [usage_usec n] after the lines [before]. *)
Definition cpu_stat_text (before : list string) (n : Z) (rest : string) : string :=
  stat_lines before ++ "usage_usec " ++ dec n ++ LF ++ rest.

(** A unified hierarchy that has run for 1234567 microseconds. *)
Definition cgroup2_usage : sys_state :=
  with_file "/sys/fs/cgroup/cpu.stat"
    (cpu_stat_text ["nr_periods 12"] 1234567 ("user_usec 1000000" ++ LF))
    (with_file "/sys/fs/cgroup/cpuacct/cpuacct.usage" ("999000" ++ LF) (bare_host 4)).

(** A split hierarchy that has run for 2500999 nanoseconds. *)
Definition cgroup1_usage : sys_state :=
  with_file "/sys/fs/cgroup/cpuacct/cpuacct.usage" ("2500999" ++ LF) (bare_host 4).

(** A unified hierarchy whose [cpu.stat] lacks the [usage_usec] line. *)
Definition cgroup2_no_usage : sys_state :=
  with_file "/sys/fs/cgroup/cpu.stat" (stat_lines ["nr_periods 12"; "nr_throttled 0"])
    (bare_host 4).

(** A split hierarchy with a ceiling of half a core at the first mount
    point. *)
Definition legacy_half_core : sys_state :=
  with_file "/sys/fs/cgroup/cpu/cpu.cfs_quota_us" ("50000" ++ LF)
    (with_file "/sys/fs/cgroup/cpu/cpu.cfs_period_us" ("100000" ++ LF) (bare_host 4)).

(** The same files with a period of zero. *)
Definition legacy_zero_period : sys_state :=
  with_file "/sys/fs/cgroup/cpu/cpu.cfs_quota_us" ("50000" ++ LF)
    (with_file "/sys/fs/cgroup/cpu/cpu.cfs_period_us" ("0" ++ LF) (bare_host 4)).

(** A quota of zero. *)
Definition zero_quota : sys_state :=
  with_file "/sys/fs/cgroup/cpu.max" (cpu_max_text 0 100000) (bare_host 4).

(** A [cpu.max] that holds the word [max] alone, beside a split hierarchy
    with a ceiling of half a core. *)
Definition max_alone_half_core : sys_state :=
  with_file "/sys/fs/cgroup/cpu.max" ("max" ++ LF) legacy_half_core.

(** Number of binary digits, as an integer. *)
Definition zdigits (m : positive) : Z := Zpos (digits2_pos m).

(** The binary32 number 1. *)
Definition fone : spec_float := S754_finite false 8388608 (-23).

(** * Properties *)

Import Libc.

(** ** Rounding never turns a positive number into zero *)

Section RoundPositive.
Variables prec emax : Z.
Hypothesis prec_pos : 0 < prec.

Lemma iter_pos_nat (A : Type) (f : A -> A) (n : positive) (x : A) :
  SpecFloat.iter_pos f n x = Nat.iter (Pos.to_nat n) f x.
Proof.
  revert x. induction n as [n IH | n IH |]; intros x; cbn [SpecFloat.iter_pos].
  - rewrite !IH, Pos2Nat.inj_xI.
    replace (S (2 * Pos.to_nat n)) with (Pos.to_nat n + S (Pos.to_nat n))%nat by lia.
    rewrite Nat.iter_add. f_equal. symmetry. apply Nat.iter_succ_r.
  - rewrite !IH, Pos2Nat.inj_xO.
    replace (2 * Pos.to_nat n)%nat with (Pos.to_nat n + Pos.to_nat n)%nat by lia.
    now rewrite Nat.iter_add.
  - reflexivity.
Qed.

Lemma digits_pos m : (1 <= digits m)%nat.
Proof. unfold digits. lia. Qed.

Lemma shr_1_keeps_positive m r s :
  (2 <= digits m)%nat ->
  exists m' r' s',
    shr_1 {| shr_m := Zpos m; shr_r := r; shr_s := s |}
    = {| shr_m := Zpos m'; shr_r := r'; shr_s := s' |}
    /\ digits m = S (digits m').
Proof.
  unfold digits. destruct m as [p | p |]; simpl; intros H.
  - exists p, true, (r || s). split; [reflexivity | lia].
  - exists p, false, (r || s). split; [reflexivity | lia].
  - lia.
Qed.

Lemma shr_iter_keeps_positive k : forall m r s,
  (k < digits m)%nat ->
  exists m' r' s',
    Nat.iter k shr_1 {| shr_m := Zpos m; shr_r := r; shr_s := s |}
    = {| shr_m := Zpos m'; shr_r := r'; shr_s := s' |}
    /\ digits m = (k + digits m')%nat.
Proof.
  induction k as [| k IH]; intros m r s Hk.
  - exists m, r, s. split; reflexivity.
  - destruct (IH m r s) as (m1 & r1 & s1 & E1 & D1); [lia |].
    destruct (shr_1_keeps_positive m1 r1 s1) as (m2 & r2 & s2 & E2 & D2); [lia |].
    exists m2, r2, s2. simpl. rewrite E1, E2. split; [reflexivity | lia].
Qed.

Lemma shr_fexp_keeps_positive m e l :
  emin prec emax <= e ->
  exists m' r' s' e',
    shr_fexp prec emax (Zpos m) e l
    = ({| shr_m := Zpos m'; shr_r := r'; shr_s := s' |}, e')
    /\ emin prec emax <= e'.
Proof.
  intros He. unfold shr_fexp, shr.
  assert (exists r s, shr_record_of_loc (Zpos m) l
                      = {| shr_m := Zpos m; shr_r := r; shr_s := s |}) as (r & s & ->).
  { destruct l as [| []]; simpl; eauto. }
  pose proof (digits_pos m) as Hd. unfold digits in Hd.
  destruct (fexp prec emax (Zdigits2 (Zpos m) + e) - e) as [| n | n] eqn:En.
  - exists m, r, s, e. split; [reflexivity | exact He].
  - unfold fexp in En. simpl Zdigits2 in En.
    destruct (shr_iter_keeps_positive (Pos.to_nat n) m r s) as (m' & r' & s' & E & _).
    { unfold digits. lia. }
    exists m', r', s', (e + Zpos n). rewrite iter_pos_nat, E.
    split; [reflexivity | lia].
  - exists m, r, s, e. split; [reflexivity | exact He].
Qed.

Lemma round_nearest_even_positive m l :
  exists m', round_nearest_even (Zpos m) l = Zpos m'.
Proof.
  destruct l as [| []]; simpl; eauto.
  destruct m; simpl; eauto.
Qed.

Lemma binary_round_aux_positive sx m e l :
  emin prec emax <= e ->
  binary_round_aux prec emax sx (Zpos m) e l = S754_infinity sx
  \/ exists m' e', binary_round_aux prec emax sx (Zpos m) e l = S754_finite sx m' e'.
Proof.
  intros He. unfold binary_round_aux.
  destruct (shr_fexp_keeps_positive m e l He) as (m1 & r1 & s1 & e1 & -> & He1).
  cbn [shr_m].
  destruct (round_nearest_even_positive m1
              (loc_of_shr_record {| shr_m := Zpos m1; shr_r := r1; shr_s := s1 |}))
    as (m2 & ->).
  destruct (shr_fexp_keeps_positive m2 e1 loc_Exact He1) as (m3 & r3 & s3 & e3 & -> & _).
  cbn [shr_m].
  destruct (e3 <=? emax - prec); eauto.
Qed.

Lemma binary_round_positive sx m e :
  emin prec emax <= e ->
  binary_round prec emax sx m e = S754_infinity sx
  \/ exists m' e', binary_round prec emax sx m e = S754_finite sx m' e'.
Proof.
  intros He. unfold binary_round, shl_align.
  destruct (fexp prec emax (Zpos (digits2_pos m) + e) - e) eqn:En;
    try (apply binary_round_aux_positive; exact He).
  apply binary_round_aux_positive. unfold fexp. lia.
Qed.

End RoundPositive.

(** ** Decimal numerals *)

(** Digits are neither white space, NUL, a sign nor the letter [m]. *)
Lemma isdigit_facts c :
  isdigit c = true ->
  isspace c = false /\ Ascii.eqb c Ascii.zero = false
  /\ c <> "-"%char /\ c <> "+"%char /\ c <> "m"%char.
Proof.
  destruct c as [[] [] [] [] [] [] [] []]; intros H; try discriminate H;
    repeat split; try reflexivity; discriminate.
Qed.

Lemma all_digits_uint d : all_digits (NilEmpty.string_of_uint d) = true.
Proof. induction d; simpl; auto. Qed.

Lemma digits_value_uint d : forall acc,
  digits_value (NilEmpty.string_of_uint d) acc = uint_acc d acc.
Proof.
  induction d; intros acc; simpl; try reflexivity;
    rewrite IHd; f_equal; lia.
Qed.

Lemma of_uint_acc_Z d : forall acc,
  Zpos (Pos.of_uint_acc d acc) = uint_acc d (Zpos acc).
Proof.
  induction d; intros acc; simpl; try reflexivity;
    rewrite IHd; f_equal; lia.
Qed.

Lemma of_uint_Z d : Z.of_uint d = uint_acc d 0.
Proof.
  unfold Z.of_uint.
  induction d; simpl; try reflexivity; try exact IHd;
    rewrite of_uint_acc_Z; reflexivity.
Qed.

Section DigitStrings.
Variable rest : string.

Lemma digits_value_app ds : forall acc,
  all_digits ds = true -> starts_with_digit rest = false ->
  digits_value (ds ++ rest) acc = digits_value ds acc.
Proof.
  induction ds as [| c ds IH]; simpl; intros acc Hd Hr.
  - destruct rest as [| c r]; simpl in *; [reflexivity |].
    unfold isdigit in Hr. destruct (digit_of c); [discriminate | reflexivity].
  - apply andb_prop in Hd as [Hc Hd]. unfold isdigit in Hc.
    destruct (digit_of c); [| discriminate]. now apply IH.
Qed.

Lemma skip_digits_app ds :
  all_digits ds = true -> starts_with_digit rest = false ->
  skip_digits (ds ++ rest) = rest.
Proof.
  induction ds as [| c ds IH]; simpl; intros Hd Hr.
  - destruct rest as [| c r]; simpl in *; [reflexivity |]. now rewrite Hr.
  - apply andb_prop in Hd as [Hc Hd]. rewrite Hc. now apply IH.
Qed.

Lemma cstr_digits_app ds :
  all_digits ds = true -> cstr (ds ++ rest) = ds ++ cstr rest.
Proof.
  induction ds as [| c ds IH]; simpl; intros Hd; [reflexivity |].
  apply andb_prop in Hd as [Hc Hd].
  destruct (isdigit_facts c Hc) as (_ & -> & _). now rewrite IH.
Qed.

Lemma take_word_digits ds : forall n,
  all_digits ds = true -> word_end rest = true ->
  (String.length ds <= n)%nat ->
  take_word n (ds ++ rest) = (ds, rest).
Proof.
  induction ds as [| c ds IH]; simpl; intros n Hd Hr Hn.
  - destruct n, rest as [| c r]; simpl in *; try reflexivity. now rewrite Hr.
  - apply andb_prop in Hd as [Hc Hd].
    destruct n as [| n]; [lia |]. simpl.
    destruct (isdigit_facts c Hc) as (-> & _).
    rewrite IH by (auto; lia). reflexivity.
Qed.

End DigitStrings.

Lemma nilzero_uint d :
  exists ds, NilZero.string_of_uint d = ds /\ all_digits ds = true
    /\ starts_with_digit ds = true /\ digits_value ds 0 = Z.of_uint d.
Proof.
  exists (NilZero.string_of_uint d). split; [reflexivity |].
  destruct d; simpl; try (split; [| split]; try reflexivity);
    try apply all_digits_uint;
    try (rewrite digits_value_uint, of_uint_Z; simpl; reflexivity).
Qed.

Lemma dec_shape z :
  exists neg ds, dec z = minus neg ++ ds /\ all_digits ds = true
    /\ starts_with_digit ds = true /\ signed neg (digits_value ds 0) = z.
Proof.
  unfold dec. pose proof (DecimalZ.of_to z) as Hz.
  destruct (Z.to_int z) as [d | d]; simpl in *;
    destruct (nilzero_uint d) as (ds & E & H1 & H2 & H3).
  - exists false, ds. simpl. rewrite E, H3. auto.
  - exists true, ds. simpl. rewrite E, H3. auto.
Qed.

Lemma uint_acc_lower d : forall acc,
  0 <= acc -> acc * 10 ^ Z.of_nat (Decimal.nb_digits d) <= uint_acc d acc.
Proof.
  induction d; intros acc Hacc; cbn [uint_acc Decimal.nb_digits];
    try (rewrite Nat2Z.inj_succ, Z.pow_succ_r by lia;
         match goal with
         | |- _ <= uint_acc _ ?a => specialize (IHd a ltac:(lia))
         end;
         pose proof (Z.pow_nonneg 10 (Z.of_nat (Decimal.nb_digits d)) ltac:(lia));
         nia).
  simpl. lia.
Qed.

Lemma length_string_of_uint d :
  String.length (NilEmpty.string_of_uint d) = Decimal.nb_digits d.
Proof. induction d; simpl; congruence. Qed.

Lemma nzhead_not_D0 d d' : Decimal.nzhead d <> Decimal.D0 d'.
Proof. induction d; simpl; try discriminate; auto. Qed.

Lemma to_uint_not_D0 p l : Pos.to_uint p <> Decimal.D0 l.
Proof.
  intros E.
  pose proof (DecimalN.Unsigned.to_of (Pos.to_uint p)) as H.
  unfold N.of_uint in H. rewrite DecimalPos.Unsigned.of_to in H.
  simpl in H. rewrite E in H. unfold Decimal.unorm in H. simpl in H.
  destruct (Decimal.nzhead l) eqn:En; try discriminate.
  - injection H as H. subst l. exact (DecimalPos.Unsigned.to_uint_nonzero p E).
  - exact (nzhead_not_D0 _ _ En).
Qed.

Lemma uint_lead d :
  d <> Decimal.Nil -> (forall l, d <> Decimal.D0 l) ->
  10 ^ (Z.of_nat (Decimal.nb_digits d) - 1) <= uint_acc d 0.
Proof.
  intros Hnil H0.
  destruct d as [| l | l | l | l | l | l | l | l | l | l];
    [congruence | exfalso; exact (H0 l eq_refl) | ..];
    cbn [uint_acc Decimal.nb_digits];
    rewrite Nat2Z.inj_succ;
    replace (Z.succ (Z.of_nat (Decimal.nb_digits l)) - 1)
      with (Z.of_nat (Decimal.nb_digits l)) by lia;
    match goal with
    | |- _ <= uint_acc _ ?a => pose proof (uint_acc_lower l a ltac:(lia))
    end;
    pose proof (Z.pow_nonneg 10 (Z.of_nat (Decimal.nb_digits l)) ltac:(lia));
    nia.
Qed.

Lemma length_to_uint p :
  Zpos p <= 9223372036854775808 ->
  (String.length (NilZero.string_of_uint (Pos.to_uint p)) <= 19)%nat.
Proof.
  intros Hp.
  pose proof (DecimalPos.Unsigned.to_uint_nonnil p) as Hnil.
  pose proof (to_uint_not_D0 p) as H0.
  pose proof (uint_lead _ Hnil H0) as Hlead.
  rewrite <- of_uint_Z in Hlead. unfold Z.of_uint in Hlead.
  rewrite DecimalPos.Unsigned.of_to in Hlead. simpl Z.of_N in Hlead.
  assert (NilZero.string_of_uint (Pos.to_uint p)
          = NilEmpty.string_of_uint (Pos.to_uint p)) as ->.
  { destruct (Pos.to_uint p); [congruence | reflexivity ..]. }
  rewrite length_string_of_uint.
  destruct (le_lt_dec (Decimal.nb_digits (Pos.to_uint p)) 19) as [Hle | Hgt];
    [exact Hle | exfalso].
  assert (10 ^ 19 <= 10 ^ (Z.of_nat (Decimal.nb_digits (Pos.to_uint p)) - 1)).
  { apply Z.pow_le_mono_r; lia. }
  lia.
Qed.

Lemma dec_length z :
  LLONG_MIN <= z <= LLONG_MAX -> (String.length (dec z) <= 20)%nat.
Proof.
  unfold LLONG_MIN, LLONG_MAX, dec. intros Hz.
  destruct z as [| p | p]; simpl.
  - lia.
  - pose proof (length_to_uint p ltac:(lia)). lia.
  - pose proof (length_to_uint p ltac:(lia)). lia.
Qed.

(** ** Strings *)

Lemma append_cons x (a b : string) : String x a ++ b = String x (a ++ b).
Proof. reflexivity. Qed.

Lemma append_nil_l (a : string) : EmptyString ++ a = a.
Proof. reflexivity. Qed.

Ltac str_norm := cbn [minus]; rewrite ?append_cons, ?append_nil_l.

Lemma append_assoc (a b c : string) : (a ++ b) ++ c = a ++ (b ++ c).
Proof. induction a as [| x a IH]; str_norm; [reflexivity | now rewrite IH]. Qed.

Lemma append_nil_r (a : string) : a ++ EmptyString = a.
Proof. induction a as [| x a IH]; str_norm; [reflexivity | now rewrite IH]. Qed.

Lemma length_append (a b : string) :
  String.length (a ++ b) = (String.length a + String.length b)%nat.
Proof. induction a as [| x a IH]; str_norm; simpl; [reflexivity | now rewrite IH]. Qed.

Lemma fread_all n s : (String.length s <= n)%nat -> fread n s = s.
Proof.
  unfold fread. revert n.
  induction s as [| c s IH]; intros [| n] H; simpl in *; try reflexivity; try lia.
  rewrite IH by lia. reflexivity.
Qed.

Lemma fread_empty n s : n <> 0%nat -> String.length (fread n s) = 0%nat <-> s = EmptyString.
Proof.
  unfold fread. intros Hn. destruct n as [| n]; [congruence |].
  destruct s; simpl; split; intros H; congruence.
Qed.

Lemma cstr_cons c s :
  Ascii.eqb c Ascii.zero = false -> cstr (String c s) = String c (cstr s).
Proof. intros H. cbn [cstr]. now rewrite H. Qed.

(** ** Parsing a rendered integer *)

Lemma scan_sign_digit c s :
  isdigit c = true -> scan_sign (String c s) = (false, String c s).
Proof.
  destruct c as [[] [] [] [] [] [] [] []]; intros H; try discriminate H; reflexivity.
Qed.

Lemma prefix_max_digit c s :
  isdigit c = true -> String.prefix "max" (String c s) = false.
Proof.
  destruct c as [[] [] [] [] [] [] [] []]; intros H; try discriminate H; reflexivity.
Qed.

Lemma eqb_max_digit c s :
  isdigit c = true -> String.eqb (String c s) "max" = false.
Proof.
  destruct c as [[] [] [] [] [] [] [] []]; intros H; try discriminate H; reflexivity.
Qed.

Lemma minus_app neg s : minus neg ++ s = if neg then String "-" s else s.
Proof. destruct neg; reflexivity. Qed.

Lemma take_word_cons n c s :
  isspace c = false ->
  take_word (S n) (String c s) = (String c (fst (take_word n s)), snd (take_word n s)).
Proof. intros H. cbn [take_word]. rewrite H. now destruct (take_word n s). Qed.

Section ParseDec.
Variable z : Z.
Variable rest : string.
Hypothesis z_range : LLONG_MIN <= z <= LLONG_MAX.

Lemma clamp64_id : clamp64 z = z.
Proof. unfold clamp64. lia. Qed.

(** [dec z] followed by [rest]: an optional minus sign, then digits. *)
Lemma dec_app_cases :
  exists (neg : bool) (c : ascii) (ds : string),
    dec z = (if neg then String "-" (String c ds) else String c ds)
    /\ dec z ++ rest = (if neg then String "-" (String c ds ++ rest) else String c ds ++ rest)
    /\ isdigit c = true
    /\ all_digits (String c ds) = true
    /\ signed neg (digits_value (String c ds) 0) = z.
Proof.
  destruct (dec_shape z) as (neg & ds & E & Hall & Hhead & Hval).
  destruct ds as [| c ds]; [discriminate Hhead |].
  exists neg, c, ds. rewrite E, append_assoc, !minus_app.
  destruct neg; auto.
Qed.

Lemma skip_space_dec : skip_space (dec z ++ rest) = dec z ++ rest.
Proof.
  destruct dec_app_cases as (neg & c & ds & _ & -> & Hc & _).
  destruct neg; [reflexivity |].
  rewrite append_cons. cbn [skip_space].
  destruct (isdigit_facts c Hc) as (-> & _). reflexivity.
Qed.

Lemma scan_sign_dec :
  exists neg ds,
    scan_sign (dec z ++ rest) = (neg, ds ++ rest)
    /\ all_digits ds = true /\ starts_with_digit ds = true
    /\ signed neg (digits_value ds 0) = z.
Proof.
  destruct dec_app_cases as (neg & c & ds & _ & -> & Hc & Hall & Hval).
  exists neg, (String c ds). repeat split; auto.
  destruct neg; [reflexivity |].
  rewrite append_cons. now apply scan_sign_digit.
Qed.

Lemma scan_lld_dec :
  starts_with_digit rest = false ->
  scan_lld (dec z ++ rest) = Some (z, rest).
Proof.
  intros Hr. unfold scan_lld. rewrite skip_space_dec.
  destruct scan_sign_dec as (neg & ds & -> & Hall & Hhead & Hval).
  destruct ds as [| c ds]; [discriminate Hhead |].
  assert (starts_with_digit (String c ds ++ rest) = true) as -> by exact Hhead.
  rewrite digits_value_app, skip_digits_app, Hval, clamp64_id by assumption.
  reflexivity.
Qed.

Lemma strtoll_dec :
  starts_with_digit rest = false ->
  strtoll (dec z ++ rest) = z.
Proof.
  intros Hr. unfold strtoll. rewrite skip_space_dec.
  destruct scan_sign_dec as (neg & ds & -> & Hall & Hhead & Hval).
  rewrite digits_value_app, Hval, clamp64_id by assumption.
  reflexivity.
Qed.

Lemma cstr_dec : cstr (dec z ++ rest) = dec z ++ cstr rest.
Proof.
  destruct dec_app_cases as (neg & c & ds & E & -> & Hc & Hall & _).
  rewrite E. destruct neg.
  - rewrite cstr_cons, cstr_digits_app by (reflexivity || assumption).
    reflexivity.
  - now apply cstr_digits_app.
Qed.

Lemma take_word_dec n :
  word_end rest = true -> (String.length (dec z) <= n)%nat ->
  take_word n (dec z ++ rest) = (dec z, rest).
Proof.
  destruct dec_app_cases as (neg & c & ds & E & -> & Hc & Hall & _).
  rewrite E. intros Hr Hn. destruct neg.
  - destruct n as [| n]; [simpl in Hn; lia |].
    rewrite take_word_cons by reflexivity.
    rewrite take_word_digits; [reflexivity | assumption | assumption |].
    simpl in Hn. simpl. lia.
  - now apply take_word_digits.
Qed.

Lemma prefix_max_dec : String.prefix "max" (dec z ++ rest) = false.
Proof.
  destruct dec_app_cases as (neg & c & ds & _ & -> & Hc & _).
  destruct neg; [reflexivity |].
  rewrite append_cons. now apply prefix_max_digit.
Qed.

End ParseDec.

Lemma dec_nonempty z : exists c s, dec z = String c s.
Proof.
  destruct (dec_shape z) as (neg & ds & -> & _ & Hhead & _).
  destruct ds as [| c ds]; [discriminate |].
  rewrite minus_app. destruct neg; eauto.
Qed.

Lemma eqb_max_dec z : String.eqb (dec z) "max" = false.
Proof.
  destruct (dec_shape z) as (neg & ds & -> & _ & Hhead & _).
  destruct ds as [| c ds]; [discriminate |].
  rewrite minus_app. destruct neg; [reflexivity | now apply eqb_max_digit].
Qed.

(** ** Comparisons of binary32 values *)

Lemma flt_fzero_fpositive v : flt fzero v = fpositive v.
Proof. destruct v as [[] | [] | | [] m e]; reflexivity. Qed.

Lemma fpositive_not_fle v : fpositive v = true -> fle v fzero = false.
Proof. destruct v as [[] | [] | | [] m e]; simpl; intros H; try discriminate H; reflexivity. Qed.

Lemma fpositive_not_zero v s : fpositive v = true -> v <> S754_zero s.
Proof. intros H ->. discriminate H. Qed.

Lemma float_of_Z_positive z : 0 < z -> fpositive (float_of_Z z) = true.
Proof.
  destruct z as [| p | p]; try lia. intros _.
  unfold float_of_Z, binary_normalize.
  destruct (binary_round_positive prec32 emax32 ltac:(reflexivity) false p 0)
    as [-> | (m & e & ->)]; [| reflexivity ..].
  unfold emin, prec32, emax32. lia.
Qed.

(** ** Two's complement *)

Lemma wrap64_id z : in_llong z -> wrap64 z = z.
Proof.
  unfold in_llong, LLONG_MIN, LLONG_MAX, wrap64, wrap. intros H.
  rewrite Z.mod_small; lia.
Qed.

Lemma wrap32_id z : INT32_MIN <= z <= INT32_MAX -> wrap32 z = z.
Proof.
  unfold INT32_MIN, INT32_MAX, wrap32, wrap. intros H.
  rewrite Z.mod_small; lia.
Qed.

Lemma wrap64_mod a b : a mod 2 ^ 64 = b mod 2 ^ 64 -> wrap64 a = wrap64 b.
Proof.
  unfold wrap64, wrap. intros H. f_equal.
  rewrite (Z.add_mod a), (Z.add_mod b), H by lia. reflexivity.
Qed.

Lemma wrap64_eqm a : (wrap64 a) mod 2 ^ 64 = a mod 2 ^ 64.
Proof.
  unfold wrap64, wrap.
  rewrite Zminus_mod, Z.mod_mod, <- Zminus_mod by lia.
  f_equal. lia.
Qed.

Lemma wrap64_sub_l a b : wrap64 (wrap64 a - b) = wrap64 (a - b).
Proof.
  apply wrap64_mod.
  rewrite Zminus_mod, wrap64_eqm, <- Zminus_mod. reflexivity.
Qed.

Lemma wrap64_mul_l a b : wrap64 (wrap64 a * b) = wrap64 (a * b).
Proof.
  apply wrap64_mod.
  rewrite Z.mul_mod, wrap64_eqm, <- Z.mul_mod by lia. reflexivity.
Qed.

(** ** Memory *)

(** What [read_cgroup_value] returns for a file that opened. *)
Lemma read_cgroup_value_content st path content :
  fopen st path = Some content ->
  Lib.read_cgroup_value st path =
    if String.eqb content EmptyString then -1
    else if strncmp_eq (cstr (fread 63 content)) "max" then -1
    else strtoll (cstr (fread 63 content)).
Proof.
  intros H. unfold Lib.read_cgroup_value. rewrite H.
  destruct (String.eqb_spec content EmptyString) as [-> | Hne]; [reflexivity |].
  destruct (Nat.eqb_spec (String.length (fread 63 content)) 0) as [E | _]; [| reflexivity].
  apply fread_empty in E; [contradiction | discriminate].
Qed.

Lemma read_cgroup_value_closed st path :
  fopen st path = None -> Lib.read_cgroup_value st path = -1.
Proof. intros H. unfold Lib.read_cgroup_value. now rewrite H. Qed.

(** C1 (as amended): when the resolved memory limit is not positive, that
    is when the cgroup reader yields no positive limit and [/proc/meminfo]
    yields no positive total, [get_memory_usage] returns the float [0.0]. *)
Theorem memory_usage_without_limit_is_zero st :
  (Lib.get_memory_limit_bytes st <= 0 <->
     Lib.read_cgroup_value st "/sys/fs/cgroup/memory.max" <= 0
     /\ fst (Lib.get_proc_meminfo st) <= 0)
  /\ (Lib.get_memory_limit_bytes st <= 0 -> Lib.get_memory_usage st = fzero).
Proof.
  split.
  - unfold Lib.get_memory_limit_bytes.
    destruct (Z.ltb_spec 0 (Lib.read_cgroup_value st "/sys/fs/cgroup/memory.max")); lia.
  - intros H. unfold Lib.get_memory_usage.
    destruct (Z.leb_spec (Lib.get_memory_limit_bytes st) 0); [reflexivity | lia].
Qed.

Lemma memory_usage_without_limit_is_zero_witness :
  Lib.get_memory_limit_bytes (bare_host 4) <= 0
  /\ Lib.get_memory_usage (bare_host 4) = fzero.
Proof.
  assert (Lib.get_memory_limit_bytes (bare_host 4) <= 0) as H by (vm_compute; discriminate).
  split; [exact H |].
  exact (proj2 (memory_usage_without_limit_is_zero (bare_host 4)) H).
Defined.

(** C1 (as stated) fails: without any limit the result is the literal
    [0.0], the very value an idle container with a 1 GiB limit gets. *)
Lemma memory_usage_unknown_is_literal_zero :
  Lib.get_memory_limit_bytes (bare_host 4) <= 0
  /\ Lib.get_memory_usage (bare_host 4) = S754_zero false
  /\ 0 < Lib.get_memory_limit_bytes idle_container
  /\ Lib.get_memory_usage idle_container = Lib.get_memory_usage (bare_host 4).
Proof. vm_compute. repeat split; discriminate. Qed.

(** C4: [is_container_env] holds exactly when [/sys/fs/cgroup/memory.max]
    opens, is not empty, does not start with [max] and parses to a positive
    number; so it is false whenever that file cannot be opened, and it
    depends on no other file, the cgroup CPU files included. *)
Theorem is_container_env_iff_memory_limit st :
  (Lib.is_container_env st = true <->
     exists content,
       fopen st "/sys/fs/cgroup/memory.max" = Some content
       /\ content <> EmptyString
       /\ strncmp_eq (cstr (fread 63 content)) "max" = false
       /\ 0 < strtoll (cstr (fread 63 content)))
  /\ (fopen st "/sys/fs/cgroup/memory.max" = None -> Lib.is_container_env st = false)
  /\ (forall path content,
        path <> "/sys/fs/cgroup/memory.max" ->
        Lib.is_container_env (with_file path content st) = Lib.is_container_env st).
Proof.
  unfold Lib.is_container_env, Lib.has_cgroup_memory_limit.
  split; [| split].
  - destruct (fopen st "/sys/fs/cgroup/memory.max") as [content |] eqn:Hf.
    + rewrite (read_cgroup_value_content _ _ _ Hf). split.
      * intros H. exists content. split; [reflexivity |].
        destruct (String.eqb_spec content EmptyString); [discriminate |].
        destruct (strncmp_eq _ "max"); [discriminate |].
        repeat split; auto. now apply Z.ltb_lt.
      * intros (c & [= <-] & Hne & Hmax & Hpos).
        destruct (String.eqb_spec content EmptyString); [contradiction |].
        rewrite Hmax. now apply Z.ltb_lt.
    + rewrite (read_cgroup_value_closed _ _ Hf). split; [discriminate |].
      intros (c & [=] & _).
  - intros Hf. now rewrite (read_cgroup_value_closed _ _ Hf).
  - intros path content Hne. unfold Lib.read_cgroup_value, fopen, with_file. simpl.
    now rewrite lookup_insert_ne.
Qed.

Lemma is_container_env_iff_memory_limit_witness :
  Lib.is_container_env idle_container = true
  /\ Lib.is_container_env unlimited_cpu = false
  /\ Lib.is_container_env
       (with_file "/sys/fs/cgroup/cpu.max" (cpu_max_text 400000 100000) idle_container)
     = Lib.is_container_env idle_container.
Proof.
  destruct (is_container_env_iff_memory_limit idle_container) as (Hiff & _ & Hother).
  destruct (is_container_env_iff_memory_limit unlimited_cpu) as (_ & Hclosed & _).
  split; [| split].
  - apply Hiff. exists ("1073741824" ++ LF).
    split; [reflexivity | split; [discriminate | split; reflexivity]].
  - apply Hclosed. reflexivity.
  - apply Hother. discriminate.
Defined.

(** C10: in a container (a positive [memory.max]) whose [memory.current]
    cannot be opened, is empty, or yields a negative number,
    [get_memory_used_bytes] returns the used bytes computed from
    [/proc/meminfo]. *)
Theorem memory_used_falls_back_to_meminfo st :
  Lib.is_container_env st = true ->
  fopen st "/sys/fs/cgroup/memory.current" = None
  \/ fopen st "/sys/fs/cgroup/memory.current" = Some EmptyString
  \/ Lib.read_cgroup_value st "/sys/fs/cgroup/memory.current" < 0 ->
  Lib.get_memory_used_bytes st = snd (Lib.get_proc_meminfo st).
Proof.
  unfold Lib.is_container_env. intros Hc Hcur.
  assert (Lib.read_cgroup_value st "/sys/fs/cgroup/memory.current" < 0) as Hneg.
  { destruct Hcur as [H | [H | H]]; [| | exact H].
    - rewrite (read_cgroup_value_closed _ _ H). lia.
    - rewrite (read_cgroup_value_content _ _ _ H). simpl. lia. }
  unfold Lib.get_memory_used_bytes. rewrite Hc.
  destruct (Z.leb_spec 0 (Lib.read_cgroup_value st "/sys/fs/cgroup/memory.current"));
    [lia | reflexivity].
Qed.

Lemma memory_used_falls_back_to_meminfo_witness :
  Lib.get_memory_used_bytes container_without_current = 3072 * 1024.
Proof.
  rewrite (memory_used_falls_back_to_meminfo container_without_current).
  - reflexivity.
  - reflexivity.
  - left. reflexivity.
Defined.

(** ** CPU limit *)

(** The limit when the environment gives none: cgroup v2, then the host. *)
Lemma cpu_limit_without_override st :
  flt fzero (Lib.get_env_cpu_limit st) = false ->
  Lib.get_cpu_limit_cores st =
    if flt fzero (Lib.get_cgroup_cpu_limit st) then Lib.get_cgroup_cpu_limit st
    else float_of_Z (nprocs st).
Proof. intros H. unfold Lib.get_cpu_limit_cores. now rewrite H. Qed.

Lemma env_cpu_limit_unset st :
  getenv st "SYSRES_CPU_CORES" = None -> Lib.get_env_cpu_limit st = fminus1.
Proof. intros H. unfold Lib.get_env_cpu_limit. now rewrite H. Qed.

Lemma env_cpu_limit_not_positive st s :
  getenv st "SYSRES_CPU_CORES" = Some s ->
  flt fzero (strtof s) = false ->
  flt fzero (Lib.get_env_cpu_limit st) = false.
Proof.
  intros H Hs. unfold Lib.get_env_cpu_limit. rewrite H. cbv zeta.
  destruct (fle (strtof s) fzero); [reflexivity | exact Hs].
Qed.

(** Strings that start like no number are not converted. *)
Lemma strtof_decimal_no_start neg c r :
  numeric_start c = false -> strtof_decimal neg (String c r) = None.
Proof.
  intros H. unfold strtof_decimal.
  assert (skip_digits (String c r) = String c r) as ->.
  { cbn [skip_digits].
    destruct c as [[] [] [] [] [] [] [] []]; try discriminate H; reflexivity. }
  unfold consumed. rewrite Nat.sub_diag.
  destruct c as [[] [] [] [] [] [] [] []]; try discriminate H; reflexivity.
Qed.

Lemma non_numeric_no_conversion s : non_numeric s = true -> strtof_conv s = None.
Proof.
  unfold non_numeric, strtof_conv.
  destruct (scan_sign (skip_space s)) as [neg body]. cbn [snd].
  destruct body as [| c r]; [reflexivity |].
  intros H. apply negb_true_iff in H.
  rewrite (strtof_decimal_no_start neg c r H).
  destruct c as [[] [] [] [] [] [] [] []]; try discriminate H; reflexivity.
Qed.

(** A few readings of [strtof]: 2, one half, ten, sixteen, and strings
    without a number. *)
Example strtof_readings :
  strtof "2" = float_of_Z 2
  /\ strtof " +0.5" = fdiv (float_of_Z 1) (float_of_Z 2)
  /\ strtof "1e1" = float_of_Z 10
  /\ strtof "0x10" = float_of_Z 16
  /\ strtof "2 cores" = float_of_Z 2
  /\ strtof "-1" = fminus1
  /\ strtof_conv "four" = None
  /\ strtof_conv EmptyString = None
  /\ strtof_conv "-" = None.
Proof. repeat split; reflexivity. Qed.

(** C3: when [SYSRES_CPU_CORES] is set and [strtof] reads a value greater
    than zero from it, [get_cpu_limit_cores] returns that value, whatever
    the files and the host core count are. *)
Theorem env_override_wins st s :
  getenv st "SYSRES_CPU_CORES" = Some s ->
  flt fzero (strtof s) = true ->
  Lib.get_cpu_limit_cores st = strtof s.
Proof.
  intros Henv Hpos.
  unfold Lib.get_cpu_limit_cores, Lib.get_env_cpu_limit. rewrite Henv. cbv zeta.
  rewrite flt_fzero_fpositive in Hpos.
  rewrite (fpositive_not_fle _ Hpos), flt_fzero_fpositive, Hpos. reflexivity.
Qed.

Lemma env_override_wins_witness :
  Lib.get_cpu_limit_cores (setenv "SYSRES_CPU_CORES" "2.5" four_core_quota)
  = S754_finite false 10485760 (-22).
Proof.
  rewrite (env_override_wins (setenv "SYSRES_CPU_CORES" "2.5" four_core_quota) "2.5");
    reflexivity.
Defined.

(** C8 (as amended): the override is ignored exactly when [strtof] reads
    from [SYSRES_CPU_CORES] a value that is not above zero, which is so for
    ["0"], for ["-1"] and for every string from which [strtof] converts
    nothing (such as one that, after white space and a sign, starts like no
    number): then the variable counts as unset, and the limit is the cgroup
    limit when that is positive and the host core count otherwise.  A string
    that only starts with a number above zero is not ignored: the value
    [strtof] reads at its start is the limit. *)
Theorem env_override_ignored st s :
  getenv st "SYSRES_CPU_CORES" = Some s ->
  (s = "0" \/ s = "-1" \/ non_numeric s = true \/ strtof_conv s = None ->
   flt fzero (strtof s) = false)
  /\ (flt fzero (strtof s) = false ->
      Lib.get_cpu_limit_cores st = Lib.get_cpu_limit_cores (unsetenv "SYSRES_CPU_CORES" st)
      /\ Lib.get_cpu_limit_cores st =
           if flt fzero (Lib.get_cgroup_cpu_limit st) then Lib.get_cgroup_cpu_limit st
           else float_of_Z (nprocs st))
  /\ (flt fzero (strtof s) = true -> Lib.get_cpu_limit_cores st = strtof s).
Proof.
  intros Henv. repeat apply conj.
  - intros [-> | [-> | [Hs | Hs]]]; [reflexivity | reflexivity | |].
    + unfold strtof. now rewrite (non_numeric_no_conversion s Hs).
    + unfold strtof. now rewrite Hs.
  - intros Hnot.
    rewrite (cpu_limit_without_override st)
      by (eapply env_cpu_limit_not_positive; eassumption).
    split; [| reflexivity].
    rewrite (cpu_limit_without_override (unsetenv "SYSRES_CPU_CORES" st)).
    + reflexivity.
    + rewrite env_cpu_limit_unset; [reflexivity |].
      unfold getenv, unsetenv. simpl. apply lookup_delete_eq.
  - intros Hpos.
    unfold Lib.get_cpu_limit_cores, Lib.get_env_cpu_limit. rewrite Henv. cbv zeta.
    rewrite flt_fzero_fpositive in Hpos.
    rewrite (fpositive_not_fle _ Hpos), flt_fzero_fpositive, Hpos. reflexivity.
Qed.

Lemma env_override_ignored_witness :
  Lib.get_cpu_limit_cores (setenv "SYSRES_CPU_CORES" "four" four_core_quota)
  = Lib.get_cpu_limit_cores four_core_quota
  /\ Lib.get_cpu_limit_cores (setenv "SYSRES_CPU_CORES" "-0.5" four_core_quota)
     = float_of_Z 4
  /\ Lib.get_cpu_limit_cores (setenv "SYSRES_CPU_CORES" "2x" four_core_quota)
     = float_of_Z 2.
Proof.
  destruct (env_override_ignored
              (setenv "SYSRES_CPU_CORES" "four" four_core_quota) "four" eq_refl)
    as (Hfour & Hignored & _).
  destruct (env_override_ignored
              (setenv "SYSRES_CPU_CORES" "-0.5" four_core_quota) "-0.5" eq_refl)
    as (_ & Hnegative & _).
  destruct (env_override_ignored
              (setenv "SYSRES_CPU_CORES" "2x" four_core_quota) "2x" eq_refl)
    as (_ & _ & Hprefix).
  repeat apply conj.
  - destruct (Hignored (Hfour (or_intror (or_intror (or_introl eq_refl))))) as (_ & H).
    rewrite H. reflexivity.
  - destruct (Hnegative eq_refl) as (_ & H). rewrite H. reflexivity.
  - rewrite (Hprefix eq_refl). reflexivity.
Defined.

(** C8 (as stated) fails: ["2x"], ["500m"] and ["1,5"] are no numbers, yet
    the override is not ignored; on a host with eight cores and a ceiling
    of four the limit becomes 2, 500 and 1. *)
Lemma env_override_numeric_prefix_is_honoured :
  Lib.get_cpu_limit_cores (unsetenv "SYSRES_CPU_CORES" four_core_quota) = float_of_Z 4
  /\ Lib.get_cpu_limit_cores (setenv "SYSRES_CPU_CORES" "2x" four_core_quota)
     = float_of_Z 2
  /\ Lib.get_cpu_limit_cores (setenv "SYSRES_CPU_CORES" "500m" four_core_quota)
     = float_of_Z 500
  /\ Lib.get_cpu_limit_cores (setenv "SYSRES_CPU_CORES" "1,5" four_core_quota)
     = float_of_Z 1
  /\ Lib.get_cpu_limit_cores (setenv "SYSRES_CPU_CORES" "2x" four_core_quota)
     <> Lib.get_cpu_limit_cores (unsetenv "SYSRES_CPU_CORES" four_core_quota).
Proof. repeat split; vm_compute; (reflexivity || discriminate). Qed.

(** The resolved limit is positive on a host that reports a core. *)
Lemma cpu_limit_cores_positive st :
  0 < nprocs st -> fpositive (Lib.get_cpu_limit_cores st) = true.
Proof.
  intros Hn. unfold Lib.get_cpu_limit_cores.
  destruct (flt fzero (Lib.get_env_cpu_limit st)) eqn:He.
  - now rewrite <- flt_fzero_fpositive.
  - destruct (flt fzero (Lib.get_cgroup_cpu_limit st)) eqn:Hc.
    + now rewrite <- flt_fzero_fpositive.
    + now apply float_of_Z_positive.
Qed.

(** C6: on a host that reports at least one core, [get_cpu_load] divides
    the 1-minute load average by a divisor that is greater than zero, hence
    never a zero: the resolved limit, which is the host core count when no
    override and no bounded positive cgroup limit exists; and a resolved
    limit that is not above zero is replaced by the host core count. *)
Theorem cpu_load_divisor_never_zero st :
  0 < nprocs st ->
  Lib.get_cpu_load st = fdiv (float_of_double (Lib.load0 st)) (Lib.cpu_load_divisor st)
  /\ flt fzero (Lib.cpu_load_divisor st) = true
  /\ (forall s, Lib.cpu_load_divisor st <> S754_zero s)
  /\ Lib.cpu_load_divisor st =
       (if fle (Lib.get_cpu_limit_cores st) fzero then float_of_Z (nprocs st)
        else Lib.get_cpu_limit_cores st)
  /\ (flt fzero (Lib.get_env_cpu_limit st) = false ->
      flt fzero (Lib.get_cgroup_cpu_limit st) = false ->
      Lib.cpu_load_divisor st = float_of_Z (nprocs st)).
Proof.
  intros Hn.
  pose proof (cpu_limit_cores_positive st Hn) as Hpos.
  assert (Lib.cpu_load_divisor st = Lib.get_cpu_limit_cores st) as Hdiv.
  { unfold Lib.cpu_load_divisor. now rewrite (fpositive_not_fle _ Hpos). }
  split; [reflexivity |].
  split; [now rewrite Hdiv, flt_fzero_fpositive |].
  split; [intros s; rewrite Hdiv; now apply fpositive_not_zero |].
  split; [reflexivity |].
  intros He Hc. rewrite Hdiv, (cpu_limit_without_override st He), Hc. reflexivity.
Qed.

Lemma cpu_load_divisor_never_zero_witness :
  Lib.get_cpu_load (with_loadavg (S754_finite false 4503599627370496 (-51)) unlimited_cpu)
  = S754_finite false 8388608 (-24)
  /\ Lib.cpu_load_divisor unlimited_cpu = float_of_Z 4.
Proof.
  split.
  - rewrite (proj1 (cpu_load_divisor_never_zero
                      (with_loadavg (S754_finite false 4503599627370496 (-51)) unlimited_cpu)
                      ltac:(reflexivity))).
    reflexivity.
  - exact (proj2 (proj2 (proj2 (proj2
             (cpu_load_divisor_never_zero unlimited_cpu ltac:(reflexivity)))))
             ltac:(reflexivity) ltac:(reflexivity)).
Defined.

(** ** A bounded quota *)

Section CpuMaxText.
Variables quota period : Z.
Hypothesis quota_range : in_llong quota.
Hypothesis period_range : in_llong period.

Lemma cpu_max_text_length : (String.length (cpu_max_text quota period) <= 63)%nat.
Proof.
  unfold cpu_max_text, cpu_max_tail. rewrite !length_append.
  pose proof (dec_length quota quota_range). pose proof (dec_length period period_range).
  simpl String.length. lia.
Qed.

Lemma cpu_max_text_buffer :
  fread 63 (cpu_max_text quota period) = cpu_max_text quota period
  /\ (String.length (cpu_max_text quota period) =? 0)%nat = false
  /\ cstr (cpu_max_text quota period) = cpu_max_text quota period.
Proof.
  split; [apply fread_all, cpu_max_text_length |]. split.
  - destruct (dec_nonempty quota) as (c & s & E).
    unfold cpu_max_text. rewrite E. reflexivity.
  - unfold cpu_max_text. rewrite cstr_dec. unfold cpu_max_tail.
    rewrite append_cons, append_nil_l, cstr_cons, cstr_dec by reflexivity.
    reflexivity.
Qed.

Lemma sscanf_cpu_max_text :
  sscanf_lld_lld (cpu_max_text quota period) = Some (quota, period).
Proof.
  unfold sscanf_lld_lld, cpu_max_text.
  rewrite (scan_lld_dec quota (cpu_max_tail period) quota_range) by reflexivity.
  unfold cpu_max_tail. rewrite append_cons, append_nil_l.
  change (skip_space (String " " (dec period ++ LF))) with (skip_space (dec period ++ LF)).
  rewrite skip_space_dec, (scan_lld_dec period LF period_range) by reflexivity.
  reflexivity.
Qed.

Lemma scan_words_cpu_max_text :
  scan_s 63 (cpu_max_text quota period) = Some (dec quota, cpu_max_tail period)
  /\ scan_s 63 (cpu_max_tail period) = Some (dec period, LF).
Proof.
  pose proof (dec_length quota quota_range). pose proof (dec_length period period_range).
  split.
  - unfold scan_s, cpu_max_text. rewrite skip_space_dec.
    rewrite take_word_dec by (reflexivity || lia).
    destruct (dec_nonempty quota) as (c & s & ->). reflexivity.
  - unfold scan_s, cpu_max_tail. rewrite append_cons, append_nil_l.
    change (skip_space (String " " (dec period ++ LF))) with (skip_space (dec period ++ LF)).
    rewrite skip_space_dec, take_word_dec by (reflexivity || lia).
    destruct (dec_nonempty period) as (c & s & ->). reflexivity.
Qed.

End CpuMaxText.

Lemma cstr_dec_alone z : cstr (dec z) = dec z.
Proof. rewrite <- (append_nil_r (dec z)) at 1. rewrite cstr_dec. apply append_nil_r. Qed.

Lemma atoll_dec z : in_llong z -> atoll (dec z) = z.
Proof.
  intros Hz. unfold atoll. rewrite <- (append_nil_r (dec z)).
  now apply strtoll_dec.
Qed.

Lemma cgroup_cpu_limit_of_text st quota period :
  in_llong quota -> in_llong period -> 0 < period ->
  fopen st "/sys/fs/cgroup/cpu.max" = Some (cpu_max_text quota period) ->
  Lib.get_cgroup_cpu_limit st = fdiv (float_of_Z quota) (float_of_Z period).
Proof.
  intros Hq Hp Hpos Hf. unfold Lib.get_cgroup_cpu_limit. rewrite Hf. cbv zeta.
  destruct (cpu_max_text_buffer quota period Hq Hp) as (-> & -> & ->).
  unfold strncmp_eq. unfold cpu_max_text at 1. rewrite prefix_max_dec.
  rewrite (sscanf_cpu_max_text quota period Hq Hp).
  destruct (Z.leb_spec period 0); [lia | reflexivity].
Qed.

Lemma unified_millicores_of_text st quota period :
  in_llong quota -> in_llong period -> 0 < period ->
  fopen st "/sys/fs/cgroup/cpu.max" = Some (cpu_max_text quota period) ->
  Monitor.unified_millicores st = Monitor.Return (Monitor.millicores quota period).
Proof.
  intros Hq Hp Hpos Hf. unfold Monitor.unified_millicores. rewrite Hf.
  destruct (scan_words_cpu_max_text quota period Hq Hp) as (-> & ->).
  cbv zeta. rewrite !cstr_dec_alone.
  unfold strcmp_eq. rewrite eqb_max_dec, !atoll_dec by assumption.
  destruct (Z.ltb_spec 0 period); [reflexivity | lia].
Qed.

Lemma millicores_floor quota period :
  0 <= quota -> 0 < period ->
  quota * 1000 <= LLONG_MAX -> quota * 1000 / period <= INT32_MAX ->
  Monitor.millicores quota period = quota * 1000 / period.
Proof.
  intros Hq Hp Hmul Hres. unfold Monitor.millicores.
  rewrite wrap64_id by (unfold in_llong, LLONG_MIN; lia).
  rewrite Z.quot_div_nonneg by lia.
  apply wrap32_id. unfold INT32_MIN.
  pose proof (Z.div_pos (quota * 1000) period ltac:(lia) Hp). lia.
Qed.

(** Two cores, one and a half, and half a core. *)
Example cgroup_cpu_limit_readings :
  Lib.get_cgroup_cpu_limit
    (with_file "/sys/fs/cgroup/cpu.max" (cpu_max_text 200000 100000) (bare_host 8))
  = float_of_Z 2
  /\ Lib.get_cgroup_cpu_limit
       (with_file "/sys/fs/cgroup/cpu.max" (cpu_max_text 150000 100000) (bare_host 8))
     = S754_finite false 12582912 (-23)
  /\ Monitor.get_cpu_limit_millicores
       (with_file "/sys/fs/cgroup/cpu.max" (cpu_max_text 150000 100000) (bare_host 8))
     = Some 1500
  /\ Lib.get_cpu_limit_cores
       (with_file "/sys/fs/cgroup/cpu.max" (cpu_max_text 50000 100000) (bare_host 8))
     = S754_finite false 8388608 (-24).
Proof. repeat split; vm_compute; reflexivity. Qed.

(** C5 (as amended): for [long long] values [quota] and [period] with
    [period > 0], written as ["quota period"] in [cpu.max],
    [get_cgroup_cpu_limit] returns the binary32 quotient of [(float)quota]
    by [(float)period], which is also the result of [get_cpu_limit_cores]
    when it is above zero and no positive override is set, and
    [get_cpu_limit_millicores] returns
    [(int32_t)((quota * 1000) / period)] with the truncating division; that
    is [floor(quota * 1000 / period)] when [quota >= 0], [quota * 1000] fits
    a [long long] and the quotient fits an [int32_t]. *)
Theorem cpu_limit_is_quota_over_period st quota period :
  in_llong quota -> in_llong period -> 0 < period ->
  fopen st "/sys/fs/cgroup/cpu.max" = Some (cpu_max_text quota period) ->
  Lib.get_cgroup_cpu_limit st = fdiv (float_of_Z quota) (float_of_Z period)
  /\ (flt fzero (Lib.get_env_cpu_limit st) = false ->
      flt fzero (fdiv (float_of_Z quota) (float_of_Z period)) = true ->
      Lib.get_cpu_limit_cores st = fdiv (float_of_Z quota) (float_of_Z period))
  /\ Monitor.get_cpu_limit_millicores st
     = Some (wrap32 (Z.quot (wrap64 (quota * 1000)) period))
  /\ (0 <= quota -> quota * 1000 <= LLONG_MAX -> quota * 1000 / period <= INT32_MAX ->
      Monitor.get_cpu_limit_millicores st = Some (quota * 1000 / period)).
Proof.
  intros Hq Hp Hpos Hf.
  assert (Monitor.get_cpu_limit_millicores st = Some (Monitor.millicores quota period)) as Hm.
  { unfold Monitor.get_cpu_limit_millicores.
    now rewrite (unified_millicores_of_text st quota period). }
  pose proof (cgroup_cpu_limit_of_text st quota period Hq Hp Hpos Hf) as Hc.
  split; [exact Hc |].
  split; [intros He Hgt; now rewrite (cpu_limit_without_override st He), Hc, Hgt |].
  split; [exact Hm |].
  intros H0 Hmul Hres. rewrite Hm. f_equal. now apply millicores_floor.
Qed.

Lemma cpu_limit_is_quota_over_period_witness :
  Lib.get_cgroup_cpu_limit four_core_quota = float_of_Z 4
  /\ Lib.get_cpu_limit_cores four_core_quota = float_of_Z 4
  /\ Monitor.get_cpu_limit_millicores four_core_quota = Some 4000.
Proof.
  destruct (cpu_limit_is_quota_over_period four_core_quota 400000 100000)
    as (Hlimit & Hcores & _ & Hmilli);
    [unfold in_llong, LLONG_MIN, LLONG_MAX; lia ..
    | reflexivity | reflexivity |].
  split; [| split].
  - rewrite Hlimit. reflexivity.
  - rewrite Hcores; reflexivity.
  - rewrite Hmilli by (unfold LLONG_MAX, INT32_MAX; (lia || (vm_compute; discriminate))).
    reflexivity.
Defined.

(** C5 (as stated) fails: the division truncates toward zero, and the
    quotient is cut to 32 bits. *)
Lemma millicores_is_not_floor :
  Monitor.get_cpu_limit_millicores negative_quota = Some 0
  /\ (-1) * 1000 / 3000 = -1
  /\ Monitor.get_cpu_limit_millicores huge_quota = Some (-1294967296)
  /\ 3000000000 * 1000 / 1000 = 3000000000.
Proof. repeat split; vm_compute; reflexivity. Qed.

(** ** No CPU ceiling *)

Lemma legacy_loop_first_result st before quota_path period_path after v :
  Forall (fun p => Monitor.legacy_variant st (fst p) (snd p) = Monitor.Continue) before ->
  Monitor.legacy_variant st quota_path period_path = Monitor.Return v ->
  Monitor.legacy_loop st (before ++ (quota_path, period_path) :: after) = Some v.
Proof.
  intros Hbefore Hhere.
  induction Hbefore as [| [qp pp] before Hskip _ IH]; cbn [app Monitor.legacy_loop].
  - now rewrite Hhere.
  - cbn [fst snd] in Hskip. now rewrite Hskip.
Qed.

(** C2 (as amended): when [cpu.max] starts with the characters [max],
    [get_cgroup_cpu_limit] returns its sentinel [-1.0] and
    [get_cpu_limit_cores], unless a positive override is set, returns the
    host core count.  [get_cpu_limit_millicores] returns [-1] when
    [cpu.max] holds at least two words and the first is [max]; a [cpu.max]
    with fewer than two words (the word [max] alone, say) gives no result
    by itself, and the result is the one of the split-hierarchy files.
    When [cpu.max] gives no result, the function returns [-1] when the
    first split-hierarchy mount point whose two files open and parse has
    the quota [-1]; [-1] is also its result when no file can be opened.  On
    a host that reports at least one core the result of
    [get_cpu_limit_cores] is above zero. *)
Theorem unbounded_cpu_limit_results st :
  (forall content,
     fopen st "/sys/fs/cgroup/cpu.max" = Some content ->
     strncmp_eq (cstr (fread 63 content)) "max" = true ->
     Lib.get_cgroup_cpu_limit st = fminus1
     /\ (flt fzero (Lib.get_env_cpu_limit st) = false ->
         Lib.get_cpu_limit_cores st = float_of_Z (nprocs st)))
  /\ (forall content q rest p rest',
        fopen st "/sys/fs/cgroup/cpu.max" = Some content ->
        scan_s 63 content = Some (q, rest) ->
        scan_s 63 rest = Some (p, rest') ->
        cstr q = "max" ->
        Monitor.get_cpu_limit_millicores st = Some (-1))
  /\ (forall content,
        fopen st "/sys/fs/cgroup/cpu.max" = Some content ->
        scan_s 63 content = None
        \/ (exists q rest, scan_s 63 content = Some (q, rest) /\ scan_s 63 rest = None) ->
        Monitor.unified_millicores st = Monitor.Continue
        /\ Monitor.get_cpu_limit_millicores st
           = Monitor.legacy_loop st (combine Monitor.quota_paths Monitor.period_paths))
  /\ (forall before quota_path period_path after qc pc period r1 r2,
        Monitor.unified_millicores st = Monitor.Continue ->
        combine Monitor.quota_paths Monitor.period_paths
          = (before ++ (quota_path, period_path) :: after)%list ->
        Forall (fun v => Monitor.legacy_variant st (fst v) (snd v) = Monitor.Continue)
          before ->
        fopen st quota_path = Some qc ->
        fopen st period_path = Some pc ->
        scan_lld qc = Some (-1, r1) ->
        scan_lld pc = Some (period, r2) ->
        Monitor.get_cpu_limit_millicores st = Some (-1))
  /\ (fs st = ∅ -> Monitor.get_cpu_limit_millicores st = Some (-1))
  /\ (0 < nprocs st -> flt fzero (Lib.get_cpu_limit_cores st) = true).
Proof.
  repeat apply conj.
  - intros content Hf Hmax.
    assert (Lib.get_cgroup_cpu_limit st = fminus1) as Hc.
    { unfold Lib.get_cgroup_cpu_limit. rewrite Hf. cbv zeta. rewrite Hmax.
      now destruct (String.length (fread 63 content) =? 0)%nat. }
    split; [exact Hc |].
    intros He. rewrite (cpu_limit_without_override st He), Hc. reflexivity.
  - intros content q rest p rest' Hf Hq Hp Hmax.
    unfold Monitor.get_cpu_limit_millicores, Monitor.unified_millicores.
    rewrite Hf, Hq, Hp. cbv zeta. rewrite Hmax. reflexivity.
  - intros content Hf Hwords.
    assert (Monitor.unified_millicores st = Monitor.Continue) as Hu.
    { unfold Monitor.unified_millicores. rewrite Hf.
      destruct Hwords as [-> | (q & rest & -> & ->)]; reflexivity. }
    split; [exact Hu |].
    unfold Monitor.get_cpu_limit_millicores. now rewrite Hu.
  - intros before quota_path period_path after qc pc period r1 r2
      Hu Hpaths Hbefore Hq Hp Hquota Hperiod.
    unfold Monitor.get_cpu_limit_millicores. rewrite Hu, Hpaths.
    apply legacy_loop_first_result; [exact Hbefore |].
    unfold Monitor.legacy_variant. rewrite Hq, Hp, Hquota, Hperiod. reflexivity.
  - intros Hfs.
    assert (forall path, fopen st path = None) as Hclosed
      by (intros path; unfold fopen; rewrite Hfs; apply lookup_empty).
    unfold Monitor.get_cpu_limit_millicores, Monitor.unified_millicores.
    rewrite Hclosed. cbn [combine Monitor.quota_paths Monitor.period_paths
                            Monitor.legacy_loop].
    unfold Monitor.legacy_variant. rewrite !Hclosed. reflexivity.
  - intros Hn. rewrite flt_fzero_fpositive. now apply cpu_limit_cores_positive.
Qed.

Lemma unbounded_cpu_limit_results_witness :
  Lib.get_cpu_limit_cores unlimited_cpu = float_of_Z 4
  /\ Monitor.get_cpu_limit_millicores unlimited_cpu = Some (-1)
  /\ Monitor.get_cpu_limit_millicores max_alone_half_core = Some 500
  /\ Monitor.get_cpu_limit_millicores legacy_unlimited_cpu = Some (-1)
  /\ Monitor.get_cpu_limit_millicores (bare_host 4) = Some (-1)
  /\ flt fzero (Lib.get_cpu_limit_cores unlimited_cpu) = true.
Proof.
  destruct (unbounded_cpu_limit_results unlimited_cpu)
    as (Hlib & Hmon & _ & _ & _ & Hpos).
  destruct (unbounded_cpu_limit_results max_alone_half_core)
    as (_ & _ & Halone & _).
  destruct (unbounded_cpu_limit_results legacy_unlimited_cpu)
    as (_ & _ & _ & Hlegacy & _).
  destruct (unbounded_cpu_limit_results (bare_host 4)) as (_ & _ & _ & _ & Hbare & _).
  repeat apply conj.
  - apply (Hlib ("max 100000" ++ LF)); reflexivity.
  - apply (Hmon ("max 100000" ++ LF) "max" (" 100000" ++ LF) "100000" LF); reflexivity.
  - destruct (Halone ("max" ++ LF) eq_refl) as (_ & H).
    + right. exists "max", LF. split; reflexivity.
    + rewrite H. reflexivity.
  - apply (Hlegacy
             [("/sys/fs/cgroup/cpu/cpu.cfs_quota_us", "/sys/fs/cgroup/cpu/cpu.cfs_period_us")]
             "/sys/fs/cgroup/cpu,cpuacct/cpu.cfs_quota_us"
             "/sys/fs/cgroup/cpu,cpuacct/cpu.cfs_period_us"
             [] ("-1" ++ LF) ("100000" ++ LF) 100000 LF LF);
      try reflexivity.
    repeat constructor.
  - apply Hbare. reflexivity.
  - apply Hpos. reflexivity.
Defined.

(** C2 (as stated) fails: with the quota [max] the sentinel is replaced by
    the host core count, and the result is the one of a real ceiling of four
    cores. *)
Lemma unbounded_cpu_limit_is_host_count :
  Lib.get_cgroup_cpu_limit unlimited_cpu = fminus1
  /\ Lib.get_cpu_limit_cores unlimited_cpu = float_of_Z (nprocs unlimited_cpu)
  /\ Lib.get_cpu_limit_cores unlimited_cpu = Lib.get_cpu_limit_cores four_core_quota.
Proof. repeat split; vm_compute; reflexivity. Qed.

(** ** /proc/meminfo *)

Lemma prefix_append a : forall b,
  String.prefix a b = true <-> exists suf, b = a ++ suf.
Proof.
  induction a as [| x a IH]; intros b.
  - split; [intros _; exists b; reflexivity | intros _; now destruct b].
  - destruct b as [| y b]; cbn [String.prefix].
    + split; [discriminate | intros (suf & H); discriminate H].
    + destruct (ascii_dec x y) as [-> | Hne].
      * rewrite IH. split; intros (suf & H); exists suf.
        -- rewrite append_cons. now f_equal.
        -- rewrite append_cons in H. now injection H.
      * split; [discriminate |]. intros (suf & H).
        rewrite append_cons in H. injection H as H _. congruence.
Qed.

Lemma drop_append a b : drop (String.length a) (a ++ b) = b.
Proof.
  induction a as [| x a IH]; [now destruct b |].
  rewrite append_cons. exact IH.
Qed.

(** [strstr] finds an occurrence when there is one. *)
Lemma strstr_Some hay needle hit :
  strstr hay needle = Some hit ->
  exists pre suf, hay = pre ++ hit /\ hit = needle ++ suf.
Proof.
  induction hay as [| c hay IH]; cbn [strstr].
  - destruct (String.prefix needle EmptyString) eqn:E; [| discriminate].
    intros [= <-]. apply prefix_append in E as (suf & E). now exists EmptyString, suf.
  - destruct (String.prefix needle (String c hay)) eqn:E.
    + intros [= <-]. apply prefix_append in E as (suf & E). now exists EmptyString, suf.
    + intros H. destruct (IH H) as (pre & suf & -> & E').
      exists (String c pre), suf. now rewrite append_cons.
Qed.

Lemma strstr_None hay needle :
  strstr hay needle = None -> forall pre suf, hay <> pre ++ needle ++ suf.
Proof.
  induction hay as [| c hay IH]; cbn [strstr]; intros H pre suf E.
  - destruct (String.prefix needle EmptyString) eqn:Hp; [discriminate |].
    destruct pre; [| discriminate E].
    rewrite append_nil_l in E.
    assert (String.prefix needle EmptyString = true) by (apply prefix_append; eauto).
    congruence.
  - destruct (String.prefix needle (String c hay)) eqn:Hp; [discriminate |].
    destruct pre as [| x pre].
    + rewrite append_nil_l in E.
      assert (String.prefix needle (String c hay) = true) by (apply prefix_append; eauto).
      congruence.
    + rewrite append_cons in E. injection E as _ E. exact (IH H pre suf E).
Qed.

(** The value [get_entry] reads for a key: 0 when the key does not occur,
    the number that follows its first occurrence otherwise. *)
Lemma get_entry_spec key buff :
  ((exists pre suf, buff = pre ++ key ++ suf) \/ Lib.get_entry key buff = 0)
  /\ ((forall pre suf, buff <> pre ++ key ++ suf) -> Lib.get_entry key buff = 0)
  /\ (forall hit, strstr buff key = Some hit ->
        exists pre suf, buff = pre ++ key ++ suf /\ hit = key ++ suf
                        /\ Lib.get_entry key buff = strtoll suf).
Proof.
  unfold Lib.get_entry.
  destruct (strstr buff key) as [hit |] eqn:E.
  - destruct (strstr_Some _ _ _ E) as (pre & suf & -> & ->).
    rewrite drop_append.
    split; [left; eauto |].
    split; [intros H; exfalso; exact (H pre suf eq_refl) |].
    intros hit [= <-]. eauto.
  - split; [now right |]. split; [reflexivity | discriminate].
Qed.

(** *** The file as Linux writes it *)

Lemma strstr_step c s needle :
  String.prefix needle (String c s) = false ->
  strstr (String c s) needle = strstr s needle.
Proof. intros H. cbn [strstr]. now rewrite H. Qed.

Lemma strstr_hit hay needle :
  String.prefix needle hay = true -> strstr hay needle = Some hay.
Proof. intros H. destruct hay; cbn [strstr]; now rewrite H. Qed.

Lemma prefix_first_differs k key c s :
  k <> c -> String.prefix (String k key) (String c s) = false.
Proof. intros H. cbn [String.prefix]. now destruct (ascii_dec k c). Qed.

Lemma strstr_skip_spaces n rest k key :
  Ascii.eqb k " " = false ->
  strstr (spaces n ++ rest) (String k key) = strstr rest (String k key).
Proof.
  intros Hk. induction n as [| n IH]; [reflexivity |].
  cbn [spaces]. rewrite append_cons, strstr_step; [exact IH |].
  apply prefix_first_differs. intros ->. discriminate Hk.
Qed.

Lemma strstr_skip_digits ds rest k key :
  isdigit k = false -> all_digits ds = true ->
  strstr (ds ++ rest) (String k key) = strstr rest (String k key).
Proof.
  intros Hk. induction ds as [| d ds IH]; [reflexivity |].
  cbn [all_digits]. intros [Hd Hds]%andb_prop.
  rewrite append_cons, strstr_step; [now apply IH |].
  apply prefix_first_differs. intros ->. congruence.
Qed.

Lemma strstr_skip_dec z rest k key :
  not_in_numbers k = true ->
  strstr (dec z ++ rest) (String k key) = strstr rest (String k key).
Proof.
  unfold not_in_numbers. intros [Hd Hm]%andb_prop.
  apply negb_true_iff in Hd, Hm.
  destruct (dec_app_cases z rest) as (neg & c & ds & _ & -> & _ & Hall & _).
  destruct neg.
  - rewrite strstr_step; [now apply strstr_skip_digits |].
    apply prefix_first_differs. intros ->. discriminate Hm.
  - now apply strstr_skip_digits.
Qed.

Lemma skip_space_spaces n s : skip_space (spaces n ++ s) = skip_space s.
Proof. induction n as [| n IH]; [reflexivity |]. cbn [spaces]. now rewrite append_cons. Qed.

Lemma strtoll_spaces n s : strtoll (spaces n ++ s) = strtoll s.
Proof. unfold strtoll. now rewrite skip_space_spaces. Qed.

Lemma cstr_spaces n s : cstr (spaces n ++ s) = spaces n ++ cstr s.
Proof.
  induction n as [| n IH]; [reflexivity |].
  cbn [spaces]. rewrite !append_cons, cstr_cons by reflexivity. now rewrite IH.
Qed.

Lemma fread_append n a b :
  (String.length a <= n)%nat ->
  fread n (a ++ b) = a ++ fread (n - String.length a) b.
Proof.
  unfold fread. revert n. induction a as [| x a IH]; intros n Hn.
  - cbn [String.length]. now rewrite Nat.sub_0_r.
  - cbn [String.length] in *. destruct n as [| n]; [lia |].
    rewrite !append_cons. cbn [substring]. rewrite IH by lia. reflexivity.
Qed.

Ltac strstr_walk :=
  repeat first
    [ rewrite strstr_hit by (apply prefix_append; eexists; reflexivity)
    | rewrite strstr_step by reflexivity
    | rewrite strstr_skip_spaces by reflexivity
    | rewrite strstr_skip_dec by reflexivity ].

Ltac entry_value :=
  unfold Lib.get_entry; strstr_walk; cbn [drop String.length];
  rewrite strtoll_spaces, strtoll_dec by (assumption || reflexivity);
  reflexivity.

Lemma get_entry_meminfo_text m tail :
  meminfo_values_fit m ->
  Lib.get_entry "MemTotal:" (meminfo_text m tail) = mem_total m
  /\ Lib.get_entry "MemFree:" (meminfo_text m tail) = mem_free m
  /\ Lib.get_entry "Buffers:" (meminfo_text m tail) = buffers m
  /\ Lib.get_entry "Cached:" (meminfo_text m tail) = cached m.
Proof.
  intros (Ht & Hf & Ha & Hb & Hc). unfold in_llong in *.
  unfold meminfo_text, meminfo_line, LF.
  rewrite !append_assoc, !append_cons, !append_nil_l.
  repeat apply conj.
  - entry_value.
  - entry_value.
  - entry_value.
  - entry_value.
Qed.

Lemma meminfo_text_tail m tail : meminfo_text m tail = meminfo_text m EmptyString ++ tail.
Proof.
  unfold meminfo_text. now rewrite !append_assoc, append_nil_l.
Qed.

Lemma cstr_meminfo_text m tail : cstr (meminfo_text m tail) = meminfo_text m (cstr tail).
Proof.
  unfold meminfo_text, meminfo_line, LF.
  rewrite !append_assoc, !append_cons, !append_nil_l.
  repeat first [ rewrite cstr_cons by reflexivity | rewrite cstr_spaces | rewrite cstr_dec ].
  reflexivity.
Qed.

(** What the reader searches when the file starts with the five lines. *)
Lemma meminfo_buffer_text st m tail :
  (meminfo_head_length m <= 4095)%nat ->
  fopen st "/proc/meminfo" = Some (meminfo_text m tail) ->
  exists tail', meminfo_buffer st = meminfo_text m tail'.
Proof.
  unfold meminfo_head_length, meminfo_buffer. intros Hlen ->.
  rewrite meminfo_text_tail, fread_append by exact Hlen.
  rewrite <- meminfo_text_tail, cstr_meminfo_text. eauto.
Qed.

Lemma get_proc_meminfo_buffer st :
  Lib.get_proc_meminfo st =
    let buff := meminfo_buffer st in
    let total_kb := Lib.get_entry "MemTotal:" buff in
    let free_kb := Lib.get_entry "MemFree:" buff in
    let buffers_kb := Lib.get_entry "Buffers:" buff in
    let cached_kb := Lib.get_entry "Cached:" buff in
    (wrap64 (total_kb * 1024),
     wrap64 ((total_kb - free_kb - buffers_kb - cached_kb) * 1024)).
Proof.
  unfold Lib.get_proc_meminfo, meminfo_buffer.
  destruct (fopen st "/proc/meminfo") as [content |]; [| reflexivity].
  destruct (Nat.eqb_spec (String.length (fread 4095 content)) 0) as [E | _].
  { apply fread_empty in E; [subst content; reflexivity | discriminate]. }
  cbv zeta. f_equal.
  set (total_kb := Lib.get_entry "MemTotal:" _).
  set (free_kb := Lib.get_entry "MemFree:" _).
  set (buffers_kb := Lib.get_entry "Buffers:" _).
  set (cached_kb := Lib.get_entry "Cached:" _).
  rewrite (wrap64_sub_l (total_kb - free_kb) buffers_kb).
  rewrite (wrap64_sub_l (total_kb - free_kb - buffers_kb) cached_kb).
  apply wrap64_mul_l.
Qed.

(** C7 (as amended): for every state of [/proc/meminfo], with each of
    [MemTotal], [MemFree], [Buffers] and [Cached] read after the first
    occurrence of its key in the first 4095 bytes and taken as 0 when the
    key does not occur, the reader stores [total = MemTotal * 1024] and
    [used = (MemTotal - MemFree - Buffers - Cached) * 1024] as 64-bit
    values, exactly so when they fit a [long long]; when the file starts
    with the lines [MemTotal], [MemFree], [MemAvailable], [Buffers] and
    [Cached] as Linux writes them, these are the values written there; for
    the block of the example the result is [total = 2000000 * 1024] and
    [used = 1000000 * 1024]. *)
Theorem proc_meminfo_total_and_used st :
  let buff := meminfo_buffer st in
  let total_kb := Lib.get_entry "MemTotal:" buff in
  let free_kb := Lib.get_entry "MemFree:" buff in
  let buffers_kb := Lib.get_entry "Buffers:" buff in
  let cached_kb := Lib.get_entry "Cached:" buff in
  Lib.get_proc_meminfo st
  = (wrap64 (total_kb * 1024),
     wrap64 ((total_kb - free_kb - buffers_kb - cached_kb) * 1024))
  /\ (in_llong (total_kb * 1024) ->
      in_llong ((total_kb - free_kb - buffers_kb - cached_kb) * 1024) ->
      Lib.get_proc_meminfo st
      = (total_kb * 1024, (total_kb - free_kb - buffers_kb - cached_kb) * 1024))
  /\ (forall key, (forall pre suf, buff <> pre ++ key ++ suf) ->
                  Lib.get_entry key buff = 0)
  /\ (forall key hit, strstr buff key = Some hit ->
        exists pre suf, buff = pre ++ key ++ suf
                        /\ Lib.get_entry key buff = strtoll suf)
  /\ (forall m tail,
        fopen st "/proc/meminfo" = Some (meminfo_text m tail) ->
        meminfo_values_fit m -> (meminfo_head_length m <= 4095)%nat ->
        total_kb = mem_total m /\ free_kb = mem_free m
        /\ buffers_kb = buffers m /\ cached_kb = cached m)
  /\ Lib.get_proc_meminfo meminfo_host = (2000000 * 1024, 1000000 * 1024).
Proof.
  intros buff total_kb free_kb buffers_kb cached_kb.
  pose proof (get_proc_meminfo_buffer st) as H. cbv zeta in H.
  fold buff in H. fold total_kb free_kb buffers_kb cached_kb in H.
  repeat apply conj.
  - exact H.
  - intros H1 H2. rewrite H, !wrap64_id by assumption. reflexivity.
  - intros key Hkey. now apply get_entry_spec.
  - intros key hit Hhit.
    destruct (proj2 (proj2 (get_entry_spec key buff)) hit Hhit)
      as (pre & suf & E & _ & V).
    eauto.
  - intros m tail Hf Hfit Hlen.
    destruct (meminfo_buffer_text st m tail Hlen Hf) as (tail' & E).
    unfold total_kb, free_kb, buffers_kb, cached_kb, buff. rewrite E.
    now apply get_entry_meminfo_text.
  - vm_compute. reflexivity.
Qed.

Lemma proc_meminfo_total_and_used_witness :
  Lib.get_proc_meminfo meminfo_host = (2048000000, 1024000000)
  /\ Lib.get_proc_meminfo linux_host
     = (16265564 * 1024, (16265564 - 8123400 - 412000 - 3120500) * 1024).
Proof.
  split.
  - destruct (proc_meminfo_total_and_used meminfo_host) as (_ & H & _).
    rewrite H; [reflexivity | vm_compute; split; discriminate ..].
  - destruct (proc_meminfo_total_and_used linux_host) as (_ & H & _ & _ & Hlinux & _).
    destruct (Hlinux linux_meminfo ("SwapCached:            0 kB" ++ LF))
      as (Et & Ef & Eb & Ec).
    + reflexivity.
    + unfold meminfo_values_fit, in_llong. vm_compute. intuition discriminate.
    + vm_compute. lia.
    + rewrite Et, Ef, Eb, Ec in H.
      rewrite H; [reflexivity | vm_compute; split; discriminate ..].
Defined.

(** C7 (as stated) fails on its example: the used bytes are
    [1000000 * 1024], not [1024000 * 1024]. *)
Lemma meminfo_example_used_bytes :
  snd (Lib.get_proc_meminfo meminfo_host) = (2000000 - 500000 - 100000 - 400000) * 1024
  /\ snd (Lib.get_proc_meminfo meminfo_host) <> 1024000 * 1024.
Proof. split; vm_compute; [reflexivity | discriminate]. Qed.

(** ** The two [get_memory_usage] *)




(** * Further properties *)

(** ** Rounding keeps finite numbers finite and signs in place *)

Lemma digits2_pos_size m : digits2_pos m = Pos.size m.
Proof. induction m; simpl; congruence. Qed.

Lemma zdigits_digits m : zdigits m = Z.of_nat (digits m).
Proof. unfold zdigits, digits. now rewrite positive_nat_Z. Qed.

Lemma zdigits_bounds m : 2 ^ (zdigits m - 1) <= Zpos m < 2 ^ zdigits m.
Proof.
  unfold zdigits. rewrite digits2_pos_size.
  pose proof (Pos.size_gt m) as Hgt. pose proof (Pos.size_le m) as Hle.
  apply Pos2Z.pos_lt_pos in Hgt. apply Pos2Z.pos_le_pos in Hle.
  rewrite Pos2Z.inj_pow in Hgt, Hle.
  replace (2 ^ Zpos (Pos.size m)) with (2 * 2 ^ (Zpos (Pos.size m) - 1)) in Hle.
  - lia.
  - rewrite <- Z.pow_succ_r by lia. f_equal. lia.
Qed.

Lemma zdigits_le_pow m k : 0 <= k -> Zpos m < 2 ^ k -> zdigits m <= k.
Proof.
  intros Hk Hm. pose proof (zdigits_bounds m) as [Hlo _].
  destruct (Z.le_gt_cases (zdigits m) k) as [H | H]; [exact H | exfalso].
  assert (2 ^ k <= 2 ^ (zdigits m - 1)) by (apply Z.pow_le_mono_r; lia).
  lia.
Qed.

Lemma zdigits_succ m : zdigits (m + 1) <= zdigits m + 1.
Proof.
  pose proof (zdigits_bounds m) as [_ Hhi].
  apply zdigits_le_pow; [unfold zdigits; lia |].
  rewrite Z.pow_add_r by (unfold zdigits; lia).
  rewrite Pos2Z.inj_add. lia.
Qed.

Lemma zdigits_iter_xO m k : zdigits (Pos.iter xO m k) = zdigits m + Zpos k.
Proof.
  unfold zdigits. revert m.
  induction k as [| k IH] using Pos.peano_ind; intros m.
  - simpl. lia.
  - rewrite Pos.iter_succ. cbn [digits2_pos]. rewrite Pos2Z.inj_succ, IH. lia.
Qed.

Section RoundFinite.
Variables prec emax : Z.
Hypothesis prec_pos : 0 < prec.

(** A right shift to the exponent the format asks for keeps the value's
    magnitude: digits and exponent add up as before. *)
Lemma shr_fexp_digits m e l :
  emin prec emax <= e ->
  exists m' r' s' e',
    shr_fexp prec emax (Zpos m) e l
    = ({| shr_m := Zpos m'; shr_r := r'; shr_s := s' |}, e')
    /\ zdigits m' + e' = zdigits m + e
    /\ e' = Z.max e (fexp prec emax (zdigits m + e)).
Proof.
  intros He. unfold shr_fexp, shr.
  assert (exists r s, shr_record_of_loc (Zpos m) l
                      = {| shr_m := Zpos m; shr_r := r; shr_s := s |}) as (r & s & ->).
  { destruct l as [| []]; simpl; eauto. }
  pose proof (digits_pos m) as Hd. rewrite !zdigits_digits.
  change (Zdigits2 (Zpos m)) with (zdigits m). rewrite zdigits_digits.
  destruct (fexp prec emax (Z.of_nat (digits m) + e) - e) as [| n | n] eqn:En.
  - exists m, r, s, e. split; [reflexivity | rewrite ?zdigits_digits; lia].
  - unfold fexp in En.
    destruct (shr_iter_keeps_positive (Pos.to_nat n) m r s) as (m' & r' & s' & E & D).
    { lia. }
    exists m', r', s', (e + Zpos n). rewrite iter_pos_nat, E.
    split; [reflexivity | rewrite ?zdigits_digits; unfold fexp; lia].
  - exists m, r, s, e. split; [reflexivity | rewrite ?zdigits_digits; lia].
Qed.

Lemma round_nearest_even_digits m l :
  exists m', round_nearest_even (Zpos m) l = Zpos m' /\ zdigits m' <= zdigits m + 1.
Proof.
  assert (zdigits (m + 1) <= zdigits m + 1) by apply zdigits_succ.
  assert (Zpos m + 1 = Zpos (m + 1)) as E by lia.
  destruct l as [| []]; cbn [round_nearest_even];
    try (exists m; split; [reflexivity | lia]).
  - destruct (Z.even (Zpos m)); [exists m; split; [reflexivity | lia] |].
    exists (m + 1)%positive. now rewrite E.
  - exists (m + 1)%positive. now rewrite E.
Qed.

(** Rounding a positive number of moderate size gives a finite number. *)
Lemma binary_round_aux_finite sx m e l :
  emin prec emax <= e -> e <= emax - prec -> zdigits m + e < emax ->
  exists m' e', binary_round_aux prec emax sx (Zpos m) e l = S754_finite sx m' e'.
Proof.
  intros He Hmax Hd. unfold binary_round_aux.
  destruct (shr_fexp_digits m e l He) as (m1 & r1 & s1 & e1 & -> & D1 & E1).
  cbn [shr_m].
  destruct (round_nearest_even_digits m1
              (loc_of_shr_record {| shr_m := Zpos m1; shr_r := r1; shr_s := s1 |}))
    as (m2 & -> & D2).
  assert (emin prec emax <= e1) as He1 by lia.
  destruct (shr_fexp_digits m2 e1 loc_Exact He1) as (m3 & r3 & s3 & e3 & -> & D3 & E3).
  cbn [shr_m].
  assert (e3 <= emax - prec) as Hfin.
  { unfold fexp in *. unfold emin in *. lia. }
  apply Z.leb_le in Hfin. rewrite Hfin. eauto.
Qed.

Lemma binary_round_finite sx m e :
  emin prec emax <= e -> e <= emax - prec -> zdigits m + e < emax ->
  exists m' e', binary_round prec emax sx m e = S754_finite sx m' e'.
Proof.
  intros He Hmax Hd. unfold binary_round, shl_align.
  change (Zpos (digits2_pos m)) with (zdigits m).
  destruct (fexp prec emax (zdigits m + e) - e) as [| k | k] eqn:En;
    try (apply binary_round_aux_finite; assumption).
  apply binary_round_aux_finite.
  - unfold fexp. lia.
  - lia.
  - rewrite zdigits_iter_xO. lia.
Qed.

(** Rounding never makes a number out of nothing: the result has the sign
    it was given and is not a NaN. *)
Lemma shr_1_nonneg mrs : 0 <= shr_m mrs -> 0 <= shr_m (shr_1 mrs).
Proof.
  destruct mrs as [m r s]. cbn [shr_m]. intros H.
  destruct m as [| [p | p |] | p]; cbn; lia.
Qed.

Lemma shr_fexp_nonneg m e l : 0 <= m -> 0 <= shr_m (fst (shr_fexp prec emax m e l)).
Proof.
  intros Hm. unfold shr_fexp, shr.
  assert (0 <= shr_m (shr_record_of_loc m l)) as H0.
  { destruct l as [| []]; exact Hm. }
  destruct (fexp prec emax (Zdigits2 m + e) - e) as [| n | n]; cbn [fst]; try exact H0.
  rewrite iter_pos_nat. induction (Pos.to_nat n) as [| k IH]; [exact H0 |].
  cbn [Nat.iter]. now apply shr_1_nonneg.
Qed.

Lemma round_nearest_even_nonneg m l : 0 <= m -> 0 <= round_nearest_even m l.
Proof.
  intros Hm. destruct l as [| []]; cbn [round_nearest_even]; try lia.
  destruct (Z.even m); lia.
Qed.

Lemma binary_round_aux_signed sx m e l :
  0 <= m ->
  match binary_round_aux prec emax sx m e l with
  | S754_zero s | S754_infinity s | S754_finite s _ _ => s = sx
  | S754_nan => False
  end.
Proof.
  intros Hm. unfold binary_round_aux.
  pose proof (shr_fexp_nonneg m e l Hm) as H1.
  destruct (shr_fexp prec emax m e l) as [mrs1 e1]. cbn [fst] in H1.
  pose proof (round_nearest_even_nonneg _ (loc_of_shr_record mrs1) H1) as H2.
  pose proof (shr_fexp_nonneg _ e1 loc_Exact H2) as H3.
  destruct (shr_fexp prec emax _ e1 loc_Exact) as [mrs3 e3]. cbn [fst] in H3.
  destruct (shr_m mrs3) as [| p | p]; [reflexivity | | lia].
  destruct (e3 <=? emax - prec); reflexivity.
Qed.

End RoundFinite.

(** ** Conversions and quotients of [long long] values *)


Lemma float_of_Z_zero : float_of_Z 0 = fzero.
Proof. reflexivity. Qed.

(** [(float)z] is finite, with the sign of [z]. *)
Lemma float_of_Z_finite z :
  in_llong z -> z <> 0 ->
  exists m e, float_of_Z z = S754_finite (z <? 0) m e.
Proof.
  unfold in_llong, LLONG_MIN, LLONG_MAX. intros Hr Hz.
  destruct z as [| p | p]; [congruence | |];
    unfold float_of_Z, binary_normalize;
    apply binary_round_finite; try reflexivity;
    try (unfold emin, prec32, emax32; lia);
    pose proof (zdigits_le_pow p 64 ltac:(lia) ltac:(lia));
    unfold emax32; lia.
Qed.

Lemma div_eucl_nonneg a b :
  0 <= a -> 0 < b -> 0 <= fst (Z.div_eucl a b).
Proof.
  intros Ha Hb. change (fst (Z.div_eucl a b)) with (a / b).
  apply Z.div_pos; lia.
Qed.

Lemma SFdiv_core_nonneg prec emax m1 e1 m2 e2 :
  0 <= fst (fst (SFdiv_core_binary prec emax (Zpos m1) e1 (Zpos m2) e2)).
Proof.
  unfold SFdiv_core_binary. cbv zeta.
  set (s := _ - _ - Z.min _ _).
  set (m' := match s with Z0 => _ | Zpos _ => _ | Zneg _ => _ end).
  assert (0 <= m') as Hm'.
  { unfold m'. destruct s; try lia. apply Z.shiftl_nonneg. lia. }
  pose proof (div_eucl_nonneg m' (Zpos m2) Hm' ltac:(lia)) as H.
  destruct (Z.div_eucl m' (Zpos m2)) as [q r]. exact H.
Qed.

(** The quotient of two finite numbers is no NaN. *)
Lemma fdiv_finite_not_nan x sy my ey :
  x <> S754_nan -> fdiv x (S754_finite sy my ey) <> S754_nan.
Proof.
  intros Hnan. destruct x as [sx | sx | | sx mx ex]; try discriminate.
  - congruence.
  - unfold fdiv. cbn [SFdiv].
    pose proof (SFdiv_core_nonneg prec32 emax32 mx ex my ey) as Hq.
    destruct (SFdiv_core_binary prec32 emax32 (Zpos mx) ex (Zpos my) ey) as [[mz ez] lz].
    cbn [fst] in Hq.
    pose proof (binary_round_aux_signed prec32 emax32 (xorb sx sy) mz ez lz Hq) as H.
    intros E. now rewrite E in H.
Qed.

(** A finite number divided by itself is one. *)
Lemma fdiv_self s m e : fdiv (S754_finite s m e) (S754_finite s m e) = fone.
Proof.
  unfold fdiv. cbn [SFdiv]. unfold SFdiv_core_binary. cbv zeta.
  rewrite !Z.sub_diag.
  change (Z.min (fexp prec32 emax32 0) 0) with (-24).
  change (0 - -24) with 24. cbv iota.
  change (IntDef.Z.div_eucl _ (Zpos m))
    with (Z.div_eucl (Z.shiftl (Zpos m) 24) (Zpos m)).
  assert (Z.div_eucl (Z.shiftl (Zpos m) 24) (Zpos m) = (2 ^ 24, 0)) as ->.
  { rewrite Z.shiftl_mul_pow2 by lia.
    pose proof (Z_div_mod_full (Zpos m * 2 ^ 24) (Zpos m) ltac:(lia)) as H.
    destruct (Z.div_eucl (Zpos m * 2 ^ 24) (Zpos m)) as [q r] eqn:E.
    assert (q = Zpos m * 2 ^ 24 / Zpos m) as Hq by (unfold Z.div; now rewrite E).
    assert (r = (Zpos m * 2 ^ 24) mod Zpos m) as Hr by (unfold Z.modulo; now rewrite E).
    rewrite Z.mul_comm, Z.div_mul in Hq by lia.
    rewrite Z.mul_comm, Z.mod_mul in Hr by lia.
    now subst. }
  assert (new_location (Zpos m) 0 = loc_Exact) as ->.
  { unfold new_location, new_location_even, new_location_odd.
    now destruct (Z.even (Zpos m)). }
  now destruct s.
Qed.

(** ** Memory readings *)

Lemma clamp64_range z : in_llong (clamp64 z).
Proof. unfold in_llong, clamp64, LLONG_MIN, LLONG_MAX. lia. Qed.

Lemma wrap64_range z : in_llong (wrap64 z).
Proof.
  unfold in_llong, wrap64, wrap, LLONG_MIN, LLONG_MAX.
  pose proof (Z.mod_pos_bound (z + 2 ^ (64 - 1)) (2 ^ 64) ltac:(lia)). lia.
Qed.

Lemma strtoll_range s : in_llong (strtoll s).
Proof. unfold strtoll. destruct (scan_sign (skip_space s)). apply clamp64_range. Qed.

(** Reading a rendered integer of any size: the nearest [long long]. *)
Lemma strtoll_dec_clamp z rest :
  starts_with_digit rest = false -> strtoll (dec z ++ rest) = clamp64 z.
Proof.
  intros Hr. unfold strtoll. rewrite skip_space_dec.
  destruct (scan_sign_dec z rest) as (neg & ds & -> & Hall & Hhead & Hval).
  now rewrite digits_value_app, Hval.
Qed.

Lemma scan_lld_dec_clamp z rest :
  starts_with_digit rest = false -> scan_lld (dec z ++ rest) = Some (clamp64 z, rest).
Proof.
  intros Hr. unfold scan_lld. rewrite skip_space_dec.
  destruct (scan_sign_dec z rest) as (neg & ds & -> & Hall & Hhead & Hval).
  destruct ds as [| c ds]; [discriminate Hhead |].
  assert (starts_with_digit (String c ds ++ rest) = true) as -> by exact Hhead.
  now rewrite digits_value_app, skip_digits_app, Hval.
Qed.

Lemma read_cgroup_value_range st path : in_llong (Lib.read_cgroup_value st path).
Proof.
  unfold Lib.read_cgroup_value.
  destruct (fopen st path); [| vm_compute; split; discriminate].
  destruct (_ =? _)%nat; [vm_compute; split; discriminate |].
  destruct (strncmp_eq _ _); [vm_compute; split; discriminate | apply strtoll_range].
Qed.

Lemma get_proc_meminfo_range st :
  in_llong (fst (Lib.get_proc_meminfo st)) /\ in_llong (snd (Lib.get_proc_meminfo st)).
Proof.
  unfold Lib.get_proc_meminfo.
  destruct (fopen st "/proc/meminfo"); [| vm_compute; intuition discriminate].
  destruct (_ =? _)%nat; [vm_compute; intuition discriminate |].
  cbn [fst snd]. split; apply wrap64_range.
Qed.

Lemma memory_limit_range st : in_llong (Lib.get_memory_limit_bytes st).
Proof.
  unfold Lib.get_memory_limit_bytes.
  destruct (0 <? _); [apply read_cgroup_value_range | apply get_proc_meminfo_range].
Qed.

Lemma memory_used_range st : in_llong (Lib.get_memory_used_bytes st).
Proof.
  unfold Lib.get_memory_used_bytes.
  destruct (Lib.has_cgroup_memory_limit st); [| apply get_proc_meminfo_range].
  destruct (0 <=? _); [apply read_cgroup_value_range | apply get_proc_meminfo_range].
Qed.

Lemma read_cgroup_value_dec_clamp st path v rest :
  fopen st path = Some (dec v ++ LF ++ rest) ->
  (String.length (dec v) <= 62)%nat ->
  Lib.read_cgroup_value st path = clamp64 v.
Proof.
  intros Hf Hlen. rewrite (read_cgroup_value_content _ _ _ Hf).
  destruct (dec_nonempty v) as (c & s & E).
  assert (String.eqb (dec v ++ LF ++ rest) EmptyString = false) as ->.
  { rewrite E. reflexivity. }
  rewrite fread_append by lia. rewrite cstr_dec.
  unfold strncmp_eq. rewrite prefix_max_dec.
  apply strtoll_dec_clamp.
  destruct (63 - String.length (dec v))%nat as [| k] eqn:Ek; [lia |].
  reflexivity.
Qed.

Lemma read_cgroup_value_dec st path v rest :
  fopen st path = Some (dec v ++ LF ++ rest) -> in_llong v ->
  Lib.read_cgroup_value st path = v.
Proof.
  intros Hf Hv. rewrite (read_cgroup_value_dec_clamp st path v rest Hf).
  - unfold clamp64. unfold in_llong in Hv. lia.
  - pose proof (dec_length v Hv). lia.
Qed.

(** X1: [read_cgroup_value] reads back a number the kernel has written.
    From a file that starts with the decimal rendering of [v] and a line
    feed it returns [v] when [v] fits a [long long], and the nearest
    [long long] whenever the rendering is at most 62 characters long. *)
Theorem read_cgroup_value_round_trip st path v rest :
  fopen st path = Some (dec v ++ LF ++ rest) ->
  (in_llong v -> Lib.read_cgroup_value st path = v)
  /\ ((String.length (dec v) <= 62)%nat -> Lib.read_cgroup_value st path = clamp64 v).
Proof.
  intros Hf. split.
  - exact (read_cgroup_value_dec st path v rest Hf).
  - exact (read_cgroup_value_dec_clamp st path v rest Hf).
Qed.

Lemma read_cgroup_value_round_trip_witness :
  Lib.read_cgroup_value idle_container "/sys/fs/cgroup/memory.max" = 1073741824
  /\ Lib.read_cgroup_value huge_memory_max "/sys/fs/cgroup/memory.max" = LLONG_MAX.
Proof.
  split.
  - apply (proj1 (read_cgroup_value_round_trip idle_container "/sys/fs/cgroup/memory.max"
                    1073741824 EmptyString eq_refl)).
    unfold in_llong, LLONG_MIN, LLONG_MAX. lia.
  - rewrite (proj2 (read_cgroup_value_round_trip huge_memory_max
                      "/sys/fs/cgroup/memory.max" (10 ^ 30) EmptyString eq_refl)).
    + reflexivity.
    + vm_compute. lia.
Defined.

(** X2: in a container whose [memory.max] holds a [limit] above zero and
    whose [memory.current] holds [used >= 0], [is_container_env] is true,
    [get_memory_limit_bytes] is [limit], [get_memory_used_bytes] is [used],
    whatever [/proc/meminfo] holds, and [get_memory_usage] is the binary32
    quotient of [(float)used] by [(float)limit]. *)
Theorem container_memory_readings st limit used rest rest' :
  in_llong limit -> in_llong used -> 0 < limit -> 0 <= used ->
  fopen st "/sys/fs/cgroup/memory.max" = Some (dec limit ++ LF ++ rest) ->
  fopen st "/sys/fs/cgroup/memory.current" = Some (dec used ++ LF ++ rest') ->
  Lib.is_container_env st = true
  /\ Lib.get_memory_limit_bytes st = limit
  /\ Lib.get_memory_used_bytes st = used
  /\ Lib.get_memory_usage st = fdiv (float_of_Z used) (float_of_Z limit).
Proof.
  intros Hl Hu Hlpos Hupos Hmax Hcur.
  pose proof (read_cgroup_value_dec st _ limit rest Hmax Hl) as Rmax.
  pose proof (read_cgroup_value_dec st _ used rest' Hcur Hu) as Rcur.
  assert (Lib.has_cgroup_memory_limit st = true) as Hc.
  { unfold Lib.has_cgroup_memory_limit. rewrite Rmax. now apply Z.ltb_lt. }
  assert (Lib.get_memory_limit_bytes st = limit) as Hlimit.
  { unfold Lib.get_memory_limit_bytes. rewrite Rmax.
    destruct (Z.ltb_spec 0 limit); [reflexivity | lia]. }
  assert (Lib.get_memory_used_bytes st = used) as Hused.
  { unfold Lib.get_memory_used_bytes. rewrite Hc, Rcur.
    destruct (Z.leb_spec 0 used); [reflexivity | lia]. }
  repeat apply conj; try assumption.
  unfold Lib.get_memory_usage. rewrite Hlimit, Hused.
  destruct (Z.leb_spec limit 0); [lia | reflexivity].
Qed.

Lemma container_memory_readings_witness :
  Lib.get_memory_limit_bytes half_full_container = 1073741824
  /\ Lib.get_memory_used_bytes half_full_container = 536870912
  /\ Lib.get_memory_usage half_full_container = S754_finite false 8388608 (-24).
Proof.
  destruct (container_memory_readings half_full_container 1073741824 536870912
              EmptyString EmptyString) as (_ & Hl & Hu & Hr);
    try reflexivity; try (unfold in_llong, LLONG_MIN, LLONG_MAX; lia).
  repeat apply conj; [exact Hl | exact Hu |].
  rewrite Hr. reflexivity.
Defined.

Lemma memory_usage_not_nan st : Lib.get_memory_usage st <> S754_nan.
Proof.
  unfold Lib.get_memory_usage.
  destruct (Z.leb_spec (Lib.get_memory_limit_bytes st) 0) as [_ | Hpos]; [discriminate |].
  destruct (float_of_Z_finite (Lib.get_memory_limit_bytes st)
              (memory_limit_range st) ltac:(lia)) as (m & e & ->).
  apply fdiv_finite_not_nan.
  destruct (Z.eq_dec (Lib.get_memory_used_bytes st) 0) as [-> | Hne]; [discriminate |].
  destruct (float_of_Z_finite _ (memory_used_range st) Hne) as (m' & e' & ->).
  discriminate.
Qed.

(** X3: [get_memory_usage] never returns a NaN, whatever the files hold. *)
Theorem memory_usage_is_never_nan st : Lib.get_memory_usage st <> S754_nan.
Proof. apply memory_usage_not_nan. Qed.

(** X4: when the used bytes equal a limit above zero, [get_memory_usage]
    is exactly 1.0. *)
Theorem memory_usage_of_full_memory_is_one st :
  0 < Lib.get_memory_limit_bytes st ->
  Lib.get_memory_used_bytes st = Lib.get_memory_limit_bytes st ->
  Lib.get_memory_usage st = float_of_Z 1.
Proof.
  intros Hpos Heq. unfold Lib.get_memory_usage. rewrite Heq.
  destruct (Z.leb_spec (Lib.get_memory_limit_bytes st) 0); [lia |].
  destruct (float_of_Z_finite (Lib.get_memory_limit_bytes st)
              (memory_limit_range st) ltac:(lia)) as (m & e & ->).
  apply fdiv_self.
Qed.

Lemma memory_usage_of_full_memory_is_one_witness :
  Lib.get_memory_usage full_container = float_of_Z 1.
Proof.
  apply memory_usage_of_full_memory_is_one; reflexivity.
Defined.

(** X5: the tool's [get_memory_usage] divides without a guard: when
    [sysinfo] reports no memory (total and free are both 0 bytes) it
    returns the NaN of 0/0, where the library's function returns a number. *)
Theorem tools_memory_usage_of_no_memory_is_nan st :
  totalram st * mem_unit st = 0 -> freeram st * mem_unit st = 0 ->
  Tools.get_memory_usage st = S754_nan
  /\ Lib.get_memory_usage st <> Tools.get_memory_usage st.
Proof.
  intros Ht Hf.
  assert (Tools.get_memory_usage st = S754_nan) as H.
  { unfold Tools.get_memory_usage.
    replace ((totalram st - freeram st) * mem_unit st) with 0 by lia.
    rewrite Ht. reflexivity. }
  split; [exact H |]. rewrite H. apply memory_usage_not_nan.
Qed.

Lemma tools_memory_usage_of_no_memory_is_nan_witness :
  Tools.get_memory_usage (with_sysinfo 0 0 4096 meminfo_host) = S754_nan.
Proof.
  apply (tools_memory_usage_of_no_memory_is_nan (with_sysinfo 0 0 4096 meminfo_host));
    reflexivity.
Defined.

(** ** macOS *)

Lemma fdiv_zero_positive y : fpositive y = true -> fdiv fzero y = fzero.
Proof. destruct y as [[] | [] | | [] m e]; intros H; try discriminate H; reflexivity. Qed.

(** Without overflow, the two byte counts of the macOS reader. *)
Lemma macos_memory_exact page stats :
  mach_values_fit {| page_size := Some page; vm_stats := Some stats |} ->
  LibMac.get_macos_memory {| page_size := Some page; vm_stats := Some stats |}
  = (free_count stats * page
     + (active_count stats + inactive_count stats + wire_count stats) * page,
     (active_count stats + inactive_count stats + wire_count stats) * page).
Proof.
  unfold mach_values_fit, LibMac.get_macos_memory. cbn [page_size vm_stats].
  intros (Hp & Hf & Ha & Hi & Hw). cbv zeta.
  assert (forall a b, 0 <= a < 2 ^ 34 -> 0 <= b <= 2 ^ 29 -> in_llong (a * b)) as Hmul.
  { intros a b Ha' Hb'. unfold in_llong, LLONG_MIN, LLONG_MAX. nia. }
  rewrite (wrap64_id (free_count stats * page)) by (apply Hmul; lia).
  rewrite (wrap64_id (active_count stats + inactive_count stats))
    by (unfold in_llong, LLONG_MIN, LLONG_MAX; lia).
  rewrite (wrap64_id (active_count stats + inactive_count stats + wire_count stats))
    by (unfold in_llong, LLONG_MIN, LLONG_MAX; lia).
  rewrite (wrap64_id ((active_count stats + inactive_count stats + wire_count stats) * page))
    by (apply Hmul; lia).
  rewrite wrap64_id; [reflexivity |].
  unfold in_llong, LLONG_MIN, LLONG_MAX. nia.
Qed.

(** X6: on macOS, with 32-bit page counts and a page size of at most
    [2 ^ 29], the used bytes are never negative and never above the total:
    they are [(active + inactive + wire) * page], and the total is the used
    bytes plus [free * page].  When one of the two Mach calls fails, the
    total, the used bytes and the usage are all 0. *)
Theorem macos_used_within_total ms :
  mach_values_fit ms ->
  0 <= LibMac.get_memory_used_bytes ms <= LibMac.get_memory_limit_bytes ms
  /\ (forall page stats,
        page_size ms = Some page -> vm_stats ms = Some stats ->
        LibMac.get_memory_used_bytes ms
        = (active_count stats + inactive_count stats + wire_count stats) * page
        /\ LibMac.get_memory_limit_bytes ms
           = LibMac.get_memory_used_bytes ms + free_count stats * page)
  /\ (page_size ms = None \/ vm_stats ms = None ->
      LibMac.get_memory_limit_bytes ms = 0 /\ LibMac.get_memory_used_bytes ms = 0
      /\ LibMac.get_memory_usage ms = fzero).
Proof.
  intros Hfit. unfold LibMac.get_memory_used_bytes, LibMac.get_memory_limit_bytes,
    LibMac.get_memory_usage.
  destruct ms as [[page |] [stats |]];
    try (repeat apply conj; cbn; try lia; try discriminate;
         intros; repeat apply conj; reflexivity).
  rewrite (macos_memory_exact page stats Hfit). cbn [fst snd].
  cbn in Hfit. destruct Hfit as (Hp & Hf & Ha & Hi & Hw).
  repeat apply conj; try nia.
  - intros page' stats' [= <-] [= <-]. split; lia.
  - intros [H | H]; discriminate H.
Qed.

Lemma macos_used_within_total_witness :
  0 <= LibMac.get_memory_used_bytes mac_host <= LibMac.get_memory_limit_bytes mac_host.
Proof.
  apply (macos_used_within_total mac_host).
  vm_compute. intuition discriminate.
Defined.

(** Both files compute the two byte counts by the same statements. *)
Lemma tools_macos_memory_usage_unfold ms :
  ToolsMac.get_memory_usage ms
  = (let '(total_memory, used_memory) := LibMac.get_macos_memory ms in
     if (used_memory =? 0) || (total_memory =? 0) then float_of_Z 0
     else fdiv (float_of_Z used_memory) (float_of_Z total_memory)).
Proof. reflexivity. Qed.

(** X7: on macOS, under the same bounds, the library's and the tool's
    [get_memory_usage] return the same value, although the tool also
    returns 0 when the used bytes are 0. *)
Theorem macos_memory_usage_implementations_agree ms :
  mach_values_fit ms ->
  LibMac.get_memory_usage ms = ToolsMac.get_memory_usage ms.
Proof.
  intros Hfit. destruct ms as [[page |] [stats |]]; try reflexivity.
  rewrite tools_macos_memory_usage_unfold.
  unfold LibMac.get_memory_usage.
  rewrite (macos_memory_exact page stats Hfit).
  cbn in Hfit. destruct Hfit as (Hp & Hf & Ha & Hi & Hw).
  set (used := (active_count stats + inactive_count stats + wire_count stats) * page).
  set (free := free_count stats * page).
  assert (0 <= used) by (unfold used; nia).
  assert (0 <= free) by (unfold free; nia).
  destruct (Z.eqb_spec used 0) as [E0 | Hne]; cbn [orb].
  - rewrite E0, Z.add_0_r.
    destruct (Z.eqb_spec free 0); [reflexivity |].
    apply fdiv_zero_positive, float_of_Z_positive. lia.
  - destruct (Z.eqb_spec (free + used) 0); [lia | reflexivity].
Qed.

Lemma macos_memory_usage_implementations_agree_witness :
  LibMac.get_memory_usage idle_mac_host = ToolsMac.get_memory_usage idle_mac_host
  /\ LibMac.get_memory_usage mac_host = S754_finite false 8388608 (-24).
Proof.
  split.
  - apply macos_memory_usage_implementations_agree. vm_compute. intuition discriminate.
  - reflexivity.
Defined.

(** ** [get_entry] *)

(** [strstr] returns the first occurrence. *)
Lemma strstr_first hay needle : forall hit,
  strstr hay needle = Some hit ->
  exists pre suf,
    hay = pre ++ needle ++ suf /\ hit = needle ++ suf
    /\ forall pre' suf', hay = pre' ++ needle ++ suf' ->
                         (String.length pre <= String.length pre')%nat.
Proof.
  induction hay as [| c hay IH]; intros hit; cbn [strstr].
  - destruct (String.prefix needle EmptyString) eqn:E; [| discriminate].
    intros [= <-]. apply prefix_append in E as (suf & E).
    exists EmptyString, suf. rewrite append_nil_l.
    repeat apply conj; try assumption. intros; cbn; lia.
  - destruct (String.prefix needle (String c hay)) eqn:E.
    + intros [= <-]. apply prefix_append in E as (suf & E).
      exists EmptyString, suf. rewrite append_nil_l.
      repeat apply conj; try assumption. intros; cbn; lia.
    + intros H. destruct (IH hit H) as (pre & suf & -> & -> & Hmin).
      exists (String c pre), suf. rewrite append_cons.
      repeat apply conj; try reflexivity.
      intros pre' suf' E'. destruct pre' as [| x pre'].
      * rewrite append_nil_l in E'.
        assert (String.prefix needle (String c (pre ++ needle ++ suf)) = true)
          by (apply prefix_append; eauto).
        congruence.
      * rewrite append_cons in E'. injection E' as _ E'.
        specialize (Hmin pre' suf' E'). cbn [String.length]. lia.
Qed.

Lemma append_same_length a : forall a' b b',
  a ++ b = a' ++ b' -> String.length a = String.length a' -> a = a' /\ b = b'.
Proof.
  induction a as [| x a IH]; intros [| x' a'] b b' E L; try discriminate L.
  - now rewrite !append_nil_l in E.
  - rewrite !append_cons in E. injection E as -> E. injection L as L.
    destruct (IH a' b b' E L) as (-> & ->). now split.
Qed.

Lemma append_cancel_l a b b' : a ++ b = a ++ b' -> b = b'.
Proof. intros E. now destruct (append_same_length a a b b' E eq_refl). Qed.

(** X8: [get_entry] returns 0 for a key that occurs nowhere in the
    buffer, and otherwise reads the number after the first place where the
    key occurs, also when that place is inside a longer key ([Cached:]
    inside [SwapCached:]). *)
Theorem get_entry_first_occurrence key buff :
  ((forall pre suf, buff <> pre ++ key ++ suf) -> Lib.get_entry key buff = 0)
  /\ (forall pre pad v rest,
        buff = pre ++ key ++ spaces pad ++ dec v ++ rest ->
        in_llong v -> starts_with_digit rest = false ->
        (forall pre' suf', buff = pre' ++ key ++ suf' ->
                           (String.length pre <= String.length pre')%nat) ->
        Lib.get_entry key buff = v).
Proof.
  split; [exact (proj1 (proj2 (get_entry_spec key buff))) |].
  intros pre pad v rest E Hv Hrest Hmin. unfold Lib.get_entry.
  destruct (strstr buff key) as [hit |] eqn:Hs.
  - destruct (strstr_first buff key hit Hs) as (pre0 & suf0 & E0 & -> & Hmin0).
    pose proof (Hmin pre0 suf0 E0) as L1.
    pose proof (Hmin0 pre _ E) as L2.
    rewrite E in E0.
    destruct (append_same_length pre pre0 _ _ E0 ltac:(lia)) as (_ & E1).
    apply append_cancel_l in E1. subst suf0.
    rewrite drop_append, strtoll_spaces. now apply strtoll_dec.
  - exfalso. exact (strstr_None buff key Hs pre _ E).
Qed.

Lemma get_entry_first_occurrence_witness :
  Lib.get_entry "Cached:"
    ("SwapCached:" ++ spaces 3 ++ dec 7 ++ " kB" ++ LF ++ "Cached: 500 kB" ++ LF) = 7.
Proof.
  apply (proj2 (get_entry_first_occurrence "Cached:"
                  ("SwapCached:" ++ spaces 3 ++ dec 7 ++ " kB" ++ LF ++ "Cached: 500 kB" ++ LF))
           "Swap" 3%nat 7 (" kB" ++ LF ++ "Cached: 500 kB" ++ LF)).
  - reflexivity.
  - unfold in_llong, LLONG_MIN, LLONG_MAX. lia.
  - reflexivity.
  - intros [| a [| b [| c [| d pre']]]] suf' H;
      try discriminate H; cbn [String.length]; lia.
Defined.

(** ** CPU time *)

Lemma fgets_take_line l : forall room rest,
  no_newline l = true -> (String.length l < room)%nat ->
  fgets_take room (l ++ LF ++ rest) = (l ++ LF, rest).
Proof.
  induction l as [| c l IH]; intros room rest Hl Hroom.
  - destruct room as [| room]; [cbn in Hroom; lia |]. reflexivity.
  - destruct room as [| room]; [cbn in Hroom; lia |].
    cbn [no_newline] in Hl. apply andb_prop in Hl as (Hc & Hl).
    rewrite !append_cons. cbn [fgets_take].
    apply negb_true_iff in Hc. rewrite Hc.
    rewrite IH; [reflexivity | assumption | cbn in Hroom; lia].
Qed.

Lemma fgets_line l rest :
  no_newline l = true -> (String.length l <= 254)%nat ->
  fgets 256 (l ++ LF ++ rest) = Some (l ++ LF, rest).
Proof.
  intros Hl Hlen. unfold fgets.
  rewrite <- (fgets_take_line l (256 - 1) rest) by (try assumption; lia).
  destruct l; reflexivity.
Qed.

Lemma prefix_cstr s : forall p,
  String.prefix p (cstr s) = true -> String.prefix p s = true.
Proof.
  induction s as [| c s IH]; intros p; [trivial |].
  cbn [cstr]. destruct (Ascii.eqb c Ascii.zero).
  - destruct p; [reflexivity | discriminate].
  - destruct p as [| a p]; [reflexivity |]. cbn [String.prefix].
    destruct (ascii_dec a c); [apply IH | discriminate].
Qed.

Lemma prefix_line l : forall p,
  no_newline p = true ->
  String.prefix p (l ++ LF) = true -> String.prefix p l = true.
Proof.
  induction l as [| c l IH]; intros p Hp.
  - rewrite append_nil_l. destruct p as [| a p]; [reflexivity |].
    unfold LF. cbn [String.prefix]. destruct (ascii_dec a "010") as [-> | _]; [| discriminate].
    discriminate Hp.
  - rewrite append_cons. destruct p as [| a p]; [reflexivity |].
    cbn [String.prefix]. destruct (ascii_dec a c); [| discriminate].
    cbn [no_newline] in Hp. apply andb_prop in Hp as (_ & Hp). now apply IH.
Qed.

Lemma other_stat_line_skipped l rest :
  other_stat_line l = true ->
  fgets 256 (l ++ LF ++ rest) = Some (l ++ LF, rest)
  /\ strncmp_eq (cstr (l ++ LF)) "usage_usec" = false.
Proof.
  unfold other_stat_line. intros H.
  apply andb_prop in H as (H & Hp). apply andb_prop in H as (Hl & Hlen).
  apply Nat.leb_le in Hlen. split; [now apply fgets_line |].
  unfold strncmp_eq. apply negb_true_iff in Hp.
  destruct (String.prefix "usage_usec" (cstr (l ++ LF))) eqn:E; [| reflexivity].
  apply prefix_cstr, prefix_line in E; [congruence | reflexivity].
Qed.

Lemma all_digits_no_newline s : all_digits s = true -> no_newline s = true.
Proof.
  induction s as [| c s IH]; [trivial |]. cbn [all_digits no_newline].
  intros H. apply andb_prop in H as (Hc & Hs). rewrite (IH Hs), andb_true_r.
  destruct c as [[] [] [] [] [] [] [] []]; try discriminate Hc; reflexivity.
Qed.

Lemma no_newline_dec z : no_newline (dec z) = true.
Proof.
  destruct (dec_shape z) as (neg & ds & -> & Hall & _).
  rewrite minus_app. destruct neg; cbn [no_newline negb andb Ascii.eqb];
    now apply all_digits_no_newline.
Qed.

Lemma no_newline_append a b :
  no_newline a = true -> no_newline b = true -> no_newline (a ++ b) = true.
Proof.
  induction a as [| c a IH]; intros Ha Hb; [now rewrite append_nil_l |].
  rewrite append_cons. cbn [no_newline] in *.
  apply andb_prop in Ha as (-> & Ha). now rewrite IH.
Qed.

(** The [usage_usec] line is read whole, and the number after the key is
    stored. *)
Lemma usage_line_read n rest :
  in_llong n ->
  fgets 256 ("usage_usec " ++ dec n ++ LF ++ rest)
  = Some ("usage_usec " ++ dec n ++ LF, rest)
  /\ cstr ("usage_usec " ++ dec n ++ LF) = "usage_usec " ++ dec n ++ LF
  /\ strncmp_eq ("usage_usec " ++ dec n ++ LF) "usage_usec" = true
  /\ scan_lld (drop 10 ("usage_usec " ++ dec n ++ LF)) = Some (n, LF).
Proof.
  intros Hn. repeat apply conj.
  - rewrite <- (append_assoc "usage_usec " (dec n) (LF ++ rest)).
    rewrite fgets_line.
    + now rewrite append_assoc.
    + apply no_newline_append; [reflexivity | apply no_newline_dec].
    + rewrite length_append. pose proof (dec_length n Hn). cbn [String.length]. lia.
  - rewrite !append_cons, append_nil_l.
    rewrite !cstr_cons by reflexivity. now rewrite (cstr_dec n LF).
  - unfold strncmp_eq. apply prefix_append. exists (" " ++ dec n ++ LF).
    now rewrite !append_cons, !append_nil_l.
  - rewrite !append_cons, append_nil_l. cbn [drop].
    transitivity (scan_lld (dec n ++ LF)); [reflexivity |].
    now apply scan_lld_dec.
Qed.

Lemma usage_usec_line_found n rest before : forall fuel,
  in_llong n -> Forall (fun l => other_stat_line l = true) before ->
  (length before < fuel)%nat ->
  Monitor.usage_usec_line fuel (cpu_stat_text before n rest)
  = Some ("usage_usec " ++ dec n ++ LF).
Proof.
  unfold cpu_stat_text.
  induction before as [| l before IH]; intros fuel Hn Hall Hfuel;
    (destruct fuel as [| fuel]; [cbn in Hfuel; lia |]); cbn [Monitor.usage_usec_line stat_lines].
  - rewrite append_nil_l.
    destruct (usage_line_read n rest Hn) as (-> & -> & -> & _). reflexivity.
  - inversion Hall as [| ? ? Hl Hrest]; subst.
    rewrite !append_assoc.
    destruct (other_stat_line_skipped l
                (stat_lines before ++ "usage_usec " ++ dec n ++ LF ++ rest) Hl)
      as (-> & ->).
    apply IH; [assumption | assumption | cbn in Hfuel; lia].
Qed.

Lemma usage_usec_line_missing before : forall fuel,
  Forall (fun l => other_stat_line l = true) before ->
  Monitor.usage_usec_line fuel (stat_lines before) = None.
Proof.
  induction before as [| l before IH]; intros fuel Hall;
    (destruct fuel as [| fuel]; [reflexivity |]); cbn [Monitor.usage_usec_line stat_lines].
  - reflexivity.
  - inversion Hall as [| ? ? Hl Hrest]; subst.
    destruct (other_stat_line_skipped l (stat_lines before) Hl) as (-> & ->).
    now apply IH.
Qed.

Lemma stat_lines_length before tail :
  (length before <= String.length (stat_lines before ++ tail))%nat.
Proof.
  induction before as [| l before IH]; [cbn; lia |].
  cbn [stat_lines length]. rewrite !append_assoc, !length_append, <- length_append.
  unfold LF at 1. cbn [String.length]. lia.
Qed.

Lemma cpu_stat_micros_text before n rest :
  in_llong n -> Forall (fun l => other_stat_line l = true) before ->
  Monitor.cpu_stat_micros (cpu_stat_text before n rest) = n.
Proof.
  intros Hn Hall. unfold Monitor.cpu_stat_micros.
  rewrite usage_usec_line_found; try assumption.
  - destruct (usage_line_read n rest Hn) as (_ & _ & _ & ->). reflexivity.
  - unfold cpu_stat_text.
    pose proof (stat_lines_length before ("usage_usec " ++ dec n ++ LF ++ rest)) as H.
    assert (String.length (stat_lines before ++ "usage_usec " ++ dec n ++ LF ++ rest)
            <> length before)%nat; [| lia].
    clear. induction before as [| l before IH].
    + cbn [stat_lines length]. rewrite append_nil_l, append_cons. cbn. lia.
    + cbn [stat_lines length]. rewrite !append_assoc, length_append.
      pose proof (stat_lines_length before ("usage_usec " ++ dec n ++ LF ++ rest)).
      unfold LF at 1. rewrite append_cons. cbn [String.length].
      rewrite append_nil_l. lia.
Qed.

(** X9: when [cpu.stat] holds the line [usage_usec n] with [n] above
    zero, after any number of lines of at most 254 characters that do not
    start with [usage_usec], [get_cpu_usage_micros] returns [n], whatever
    [cpuacct.usage] holds, and [get_cgroup_version] returns 2. *)
Theorem cpu_usage_is_usage_usec st before n rest :
  in_llong n -> 0 < n ->
  Forall (fun l => other_stat_line l = true) before ->
  fopen st "/sys/fs/cgroup/cpu.stat" = Some (cpu_stat_text before n rest) ->
  Monitor.get_cpu_usage_micros st = n /\ Monitor.get_cgroup_version st = 2.
Proof.
  intros Hn Hpos Hall Hf. unfold Monitor.get_cpu_usage_micros, Monitor.get_cgroup_version.
  rewrite Hf, (cpu_stat_micros_text before n rest Hn Hall). cbv zeta.
  destruct (Z.ltb_spec 0 n); [split; reflexivity | lia].
Qed.

Lemma cpu_usage_is_usage_usec_witness :
  Monitor.get_cpu_usage_micros cgroup2_usage = 1234567
  /\ Monitor.get_cgroup_version cgroup2_usage = 2.
Proof.
  apply (cpu_usage_is_usage_usec cgroup2_usage ["nr_periods 12"] 1234567
           ("user_usec 1000000" ++ LF)).
  - unfold in_llong, LLONG_MIN, LLONG_MAX. lia.
  - lia.
  - repeat constructor.
  - reflexivity.
Defined.

(** X10: when [cpu.stat] gives no reading above zero (it cannot be
    opened, or the number read from it is zero or negative) and
    [cpuacct.usage] starts with the number [nanos], [get_cpu_usage_micros]
    returns [nanos / 1000] truncated toward zero, which is the floor when
    [nanos >= 0]. *)
Theorem cpu_usage_falls_back_to_cpuacct st nanos rest :
  (forall content, fopen st "/sys/fs/cgroup/cpu.stat" = Some content ->
                   Monitor.cpu_stat_micros content <= 0) ->
  fopen st "/sys/fs/cgroup/cpuacct/cpuacct.usage" = Some (dec nanos ++ LF ++ rest) ->
  in_llong nanos ->
  Monitor.get_cpu_usage_micros st = Z.quot nanos 1000
  /\ (0 <= nanos -> Monitor.get_cpu_usage_micros st = nanos / 1000).
Proof.
  intros Hstat Hf Hn.
  assert (Monitor.get_cpu_usage_micros st = Z.quot nanos 1000) as E.
  { unfold Monitor.get_cpu_usage_micros. rewrite Hf.
    rewrite (scan_lld_dec nanos (LF ++ rest) Hn) by reflexivity. cbv zeta.
    destruct (fopen st "/sys/fs/cgroup/cpu.stat") as [content |].
    - specialize (Hstat content eq_refl).
      destruct (Z.ltb_spec 0 (Monitor.cpu_stat_micros content)); [lia | reflexivity].
    - reflexivity. }
  split; [exact E |]. intros Hpos. rewrite E. apply Z.quot_div_nonneg; lia.
Qed.

Lemma cpu_usage_falls_back_to_cpuacct_witness :
  Monitor.get_cpu_usage_micros cgroup1_usage = 2500
  /\ Monitor.get_cgroup_version cgroup1_usage = 1.
Proof.
  split; [| reflexivity].
  apply (proj1 (cpu_usage_falls_back_to_cpuacct cgroup1_usage 2500999 EmptyString
                  ltac:(intros content H; discriminate H) eq_refl
                  ltac:(unfold in_llong, LLONG_MIN, LLONG_MAX; lia))).
Defined.

(** X11: [get_cgroup_version] returns 0 exactly when neither [cpu.stat]
    nor [cpuacct.usage] can be opened, and then [get_cpu_usage_micros]
    returns 0; it also returns 0 when [cpu.stat] opens (version 2) but has
    no [usage_usec] line and [cpuacct.usage] cannot be opened. *)
Theorem cpu_usage_without_reading_is_zero st :
  (Monitor.get_cgroup_version st = 0 <->
   fopen st "/sys/fs/cgroup/cpu.stat" = None
   /\ fopen st "/sys/fs/cgroup/cpuacct/cpuacct.usage" = None)
  /\ (Monitor.get_cgroup_version st = 0 -> Monitor.get_cpu_usage_micros st = 0)
  /\ (forall before,
        Forall (fun l => other_stat_line l = true) before ->
        fopen st "/sys/fs/cgroup/cpu.stat" = Some (stat_lines before) ->
        fopen st "/sys/fs/cgroup/cpuacct/cpuacct.usage" = None ->
        Monitor.get_cgroup_version st = 2 /\ Monitor.get_cpu_usage_micros st = 0).
Proof.
  unfold Monitor.get_cgroup_version, Monitor.get_cpu_usage_micros.
  repeat apply conj.
  - destruct (fopen st "/sys/fs/cgroup/cpu.stat"); [discriminate |].
    destruct (fopen st "/sys/fs/cgroup/cpuacct/cpuacct.usage"); [discriminate |].
    split; reflexivity.
  - intros (-> & ->). reflexivity.
  - destruct (fopen st "/sys/fs/cgroup/cpu.stat"); [discriminate |].
    destruct (fopen st "/sys/fs/cgroup/cpuacct/cpuacct.usage"); [discriminate |].
    reflexivity.
  - intros before Hall -> ->. split; [reflexivity |].
    unfold Monitor.cpu_stat_micros.
    now rewrite (usage_usec_line_missing before _ Hall).
Qed.

Lemma cpu_usage_without_reading_is_zero_witness :
  Monitor.get_cpu_usage_micros (bare_host 4) = 0
  /\ Monitor.get_cpu_usage_micros cgroup2_no_usage = 0.
Proof.
  split.
  - apply (proj1 (proj2 (cpu_usage_without_reading_is_zero (bare_host 4)))).
    reflexivity.
  - apply (proj2 (proj2 (cpu_usage_without_reading_is_zero cgroup2_no_usage))
             ["nr_periods 12"; "nr_throttled 0"]).
    + repeat constructor.
    + reflexivity.
    + reflexivity.
Defined.

(** ** CPU limits of the split hierarchy, and edge cases *)

Lemma wrap32_range z : INT32_MIN <= wrap32 z <= INT32_MAX.
Proof.
  unfold wrap32, wrap, INT32_MIN, INT32_MAX.
  pose proof (Z.mod_pos_bound (z + 2 ^ (32 - 1)) (2 ^ 32) ltac:(lia)). lia.
Qed.

Lemma legacy_variant_of_text st quota_path period_path quota period rq rp :
  in_llong quota -> in_llong period ->
  fopen st quota_path = Some (dec quota ++ LF ++ rq) ->
  fopen st period_path = Some (dec period ++ LF ++ rp) ->
  Monitor.legacy_variant st quota_path period_path
  = if quota =? -1 then Monitor.Return (-1)
    else if 0 <? period then Monitor.Return (Monitor.millicores quota period)
    else Monitor.DoubleClose.
Proof.
  intros Hq Hp Hfq Hfp. unfold Monitor.legacy_variant. rewrite Hfq, Hfp.
  rewrite (scan_lld_dec quota (LF ++ rq) Hq), (scan_lld_dec period (LF ++ rp) Hp)
    by reflexivity.
  reflexivity.
Qed.

Lemma legacy_variant_absent st quota_path period_path :
  fopen st quota_path = None \/ fopen st period_path = None ->
  Monitor.legacy_variant st quota_path period_path = Monitor.Continue.
Proof.
  unfold Monitor.legacy_variant. intros [-> | ->]; [reflexivity |].
  now destruct (fopen st quota_path).
Qed.

Lemma cgroup_cpu_limit_closed st :
  fopen st "/sys/fs/cgroup/cpu.max" = None ->
  Lib.get_cgroup_cpu_limit st = fminus1 /\ Monitor.unified_millicores st = Monitor.Continue.
Proof.
  intros H. unfold Lib.get_cgroup_cpu_limit, Monitor.unified_millicores.
  now rewrite H.
Qed.

(** X12: without [cpu.max], when the quota and period files of the first
    split-hierarchy mount point whose two files open (the [cpu] one, else
    the [cpu,cpuacct] one) hold the numbers [quota] and [period],
    [get_cpu_limit_millicores] returns [-1] for the quota [-1], otherwise
    [(int32_t)((quota * 1000) / period)] when [period > 0], and otherwise
    has no defined result (both streams are closed a second time).  The
    library does not read these files: [get_cgroup_cpu_limit] is [-1.0] and
    [get_cpu_limit_cores], without a positive override, is the host core
    count. *)
Theorem legacy_cpu_limit_of_text st quota_path period_path quota period rq rp :
  (quota_path, period_path)
  = ("/sys/fs/cgroup/cpu/cpu.cfs_quota_us", "/sys/fs/cgroup/cpu/cpu.cfs_period_us")
  \/ ((quota_path, period_path)
      = ("/sys/fs/cgroup/cpu,cpuacct/cpu.cfs_quota_us",
         "/sys/fs/cgroup/cpu,cpuacct/cpu.cfs_period_us")
      /\ (fopen st "/sys/fs/cgroup/cpu/cpu.cfs_quota_us" = None
          \/ fopen st "/sys/fs/cgroup/cpu/cpu.cfs_period_us" = None)) ->
  in_llong quota -> in_llong period ->
  fopen st "/sys/fs/cgroup/cpu.max" = None ->
  fopen st quota_path = Some (dec quota ++ LF ++ rq) ->
  fopen st period_path = Some (dec period ++ LF ++ rp) ->
  Monitor.get_cpu_limit_millicores st
  = (if quota =? -1 then Some (-1)
     else if 0 <? period then Some (Monitor.millicores quota period)
     else None)
  /\ Lib.get_cgroup_cpu_limit st = fminus1
  /\ (flt fzero (Lib.get_env_cpu_limit st) = false ->
      Lib.get_cpu_limit_cores st = float_of_Z (nprocs st)).
Proof.
  intros Hmount Hq Hp Hmax Hfq Hfp.
  destruct (cgroup_cpu_limit_closed st Hmax) as (Hlib & Huni).
  pose proof (legacy_variant_of_text st quota_path period_path quota period rq rp
                Hq Hp Hfq Hfp) as Hv.
  repeat apply conj.
  - unfold Monitor.get_cpu_limit_millicores. rewrite Huni.
    cbn [combine Monitor.quota_paths Monitor.period_paths Monitor.legacy_loop].
    destruct Hmount as [[= -> ->] | ([= -> ->] & Habs)].
    + rewrite Hv. destruct (quota =? -1); [reflexivity |]. now destruct (0 <? period).
    + rewrite (legacy_variant_absent st _ _ Habs), Hv.
      destruct (quota =? -1); [reflexivity |]. now destruct (0 <? period).
  - exact Hlib.
  - intros He. rewrite (cpu_limit_without_override st He), Hlib. reflexivity.
Qed.

Lemma legacy_cpu_limit_of_text_witness :
  Monitor.get_cpu_limit_millicores legacy_half_core = Some 500
  /\ Monitor.get_cpu_limit_millicores legacy_zero_period = None
  /\ Lib.get_cpu_limit_cores legacy_half_core = float_of_Z 4.
Proof.
  repeat apply conj.
  - apply (proj1 (legacy_cpu_limit_of_text legacy_half_core _ _ 50000 100000
                    EmptyString EmptyString (or_introl eq_refl)
                    ltac:(unfold in_llong, LLONG_MIN, LLONG_MAX; lia)
                    ltac:(unfold in_llong, LLONG_MIN, LLONG_MAX; lia)
                    eq_refl eq_refl eq_refl)).
  - apply (proj1 (legacy_cpu_limit_of_text legacy_zero_period _ _ 50000 0
                    EmptyString EmptyString (or_introl eq_refl)
                    ltac:(unfold in_llong, LLONG_MIN, LLONG_MAX; lia)
                    ltac:(unfold in_llong, LLONG_MIN, LLONG_MAX; lia)
                    eq_refl eq_refl eq_refl)).
  - apply (proj2 (proj2 (legacy_cpu_limit_of_text legacy_half_core _ _ 50000 100000
                    EmptyString EmptyString (or_introl eq_refl)
                    ltac:(unfold in_llong, LLONG_MIN, LLONG_MAX; lia)
                    ltac:(unfold in_llong, LLONG_MIN, LLONG_MAX; lia)
                    eq_refl eq_refl eq_refl))).
    reflexivity.
Defined.

(** A quotient of a number that is not above zero by one that is, is not
    above zero. *)
Lemma fdiv_not_positive quota period :
  in_llong quota -> in_llong period -> quota <= 0 -> 0 < period ->
  fpositive (fdiv (float_of_Z quota) (float_of_Z period)) = false.
Proof.
  intros Hq Hp Hle Hpos.
  destruct (Z.eq_dec quota 0) as [-> | Hne].
  - rewrite float_of_Z_zero, fdiv_zero_positive; [reflexivity |].
    now apply float_of_Z_positive.
  - destruct (float_of_Z_finite quota Hq Hne) as (mq & eq & ->).
    destruct (float_of_Z_finite period Hp ltac:(lia)) as (mp & ep & ->).
    destruct (Z.ltb_spec quota 0); [| lia].
    destruct (Z.ltb_spec period 0); [lia |].
    unfold fdiv. cbn [SFdiv].
    pose proof (SFdiv_core_nonneg prec32 emax32 mq eq mp ep) as Hm.
    destruct (SFdiv_core_binary prec32 emax32 (Zpos mq) eq (Zpos mp) ep) as [[mz ez] lz].
    cbn [fst] in Hm.
    pose proof (binary_round_aux_signed prec32 emax32 (xorb true false) mz ez lz Hm) as Hs.
    destruct (binary_round_aux prec32 emax32 (xorb true false) mz ez lz) as [s | s | | s m e];
      try contradiction; cbn in Hs; subst; reflexivity.
Qed.

(** X13: a quota in [cpu.max] that is zero or negative (with a period
    above zero) is no limit for the library: without a positive override
    [get_cpu_limit_cores] returns the host core count, while
    [get_cpu_limit_millicores] still returns
    [(int32_t)((quota * 1000) / period)]. *)
Theorem nonpositive_quota_is_no_limit st quota period :
  in_llong quota -> in_llong period -> quota <= 0 -> 0 < period ->
  fopen st "/sys/fs/cgroup/cpu.max" = Some (cpu_max_text quota period) ->
  flt fzero (Lib.get_env_cpu_limit st) = false ->
  Lib.get_cpu_limit_cores st = float_of_Z (nprocs st)
  /\ Monitor.get_cpu_limit_millicores st = Some (Monitor.millicores quota period).
Proof.
  intros Hq Hp Hle Hpos Hf He. split.
  - rewrite (cpu_limit_without_override st He).
    rewrite (cgroup_cpu_limit_of_text st quota period Hq Hp Hpos Hf).
    now rewrite flt_fzero_fpositive, fdiv_not_positive.
  - unfold Monitor.get_cpu_limit_millicores.
    now rewrite (unified_millicores_of_text st quota period Hq Hp Hpos Hf).
Qed.

Lemma nonpositive_quota_is_no_limit_witness :
  Lib.get_cpu_limit_cores zero_quota = float_of_Z 4
  /\ Monitor.get_cpu_limit_millicores zero_quota = Some 0.
Proof.
  apply (nonpositive_quota_is_no_limit zero_quota 0 100000);
    try reflexivity; unfold in_llong, LLONG_MIN, LLONG_MAX; lia.
Defined.

Lemma unified_millicores_range st v :
  Monitor.unified_millicores st = Monitor.Return v -> INT32_MIN <= v <= INT32_MAX.
Proof.
  unfold Monitor.unified_millicores.
  destruct (fopen st "/sys/fs/cgroup/cpu.max") as [content |]; [| discriminate].
  destruct (scan_s 63 content) as [[q rest] |]; [| discriminate].
  destruct (scan_s 63 rest) as [[p rest'] |]; [| discriminate].
  cbv zeta. destruct (strcmp_eq (cstr q) "max").
  - intros [= <-]. unfold INT32_MIN, INT32_MAX. lia.
  - destruct (0 <? atoll (cstr p)); [| discriminate].
    intros [= <-]. apply wrap32_range.
Qed.

Lemma unified_millicores_closes_once st :
  Monitor.unified_millicores st <> Monitor.DoubleClose.
Proof.
  unfold Monitor.unified_millicores.
  destruct (fopen st "/sys/fs/cgroup/cpu.max") as [content |]; [| discriminate].
  destruct (scan_s 63 content) as [[q rest] |]; [| discriminate].
  destruct (scan_s 63 rest) as [[p rest'] |]; [| discriminate].
  cbv zeta. destruct (strcmp_eq (cstr q) "max"); [discriminate |].
  destruct (0 <? atoll (cstr p)); discriminate.
Qed.

Lemma legacy_variant_range st quota_path period_path v :
  Monitor.legacy_variant st quota_path period_path = Monitor.Return v ->
  INT32_MIN <= v <= INT32_MAX.
Proof.
  unfold Monitor.legacy_variant.
  destruct (fopen st quota_path) as [qc |]; [| discriminate].
  destruct (fopen st period_path) as [pc |]; [| discriminate].
  destruct (scan_lld qc) as [[quota ?] |]; [| discriminate].
  destruct (scan_lld pc) as [[period ?] |]; [| discriminate].
  destruct (quota =? -1).
  - intros [= <-]. unfold INT32_MIN, INT32_MAX. lia.
  - destruct (0 <? period); [| discriminate]. intros [= <-]. apply wrap32_range.
Qed.

(** X14: every result of [get_cpu_limit_millicores] lies in the range of
    [int32_t]; and when neither period file of the split hierarchy can be
    opened the function has a result: the one [cpu.max] gives, or [-1]
    when [cpu.max] gives none. *)
Theorem cpu_limit_millicores_defined st :
  (forall v, Monitor.get_cpu_limit_millicores st = Some v -> INT32_MIN <= v <= INT32_MAX)
  /\ (fopen st "/sys/fs/cgroup/cpu/cpu.cfs_period_us" = None ->
      fopen st "/sys/fs/cgroup/cpu,cpuacct/cpu.cfs_period_us" = None ->
      exists v, Monitor.get_cpu_limit_millicores st = Some v
                /\ (Monitor.unified_millicores st = Monitor.Return v
                    \/ Monitor.unified_millicores st = Monitor.Continue /\ v = -1)).
Proof.
  unfold Monitor.get_cpu_limit_millicores.
  cbn [combine Monitor.quota_paths Monitor.period_paths Monitor.legacy_loop].
  split.
  - intros v.
    destruct (Monitor.unified_millicores st) as [u | |] eqn:Hu; [| | discriminate].
    + intros [= <-]. exact (unified_millicores_range st u Hu).
    + destruct (Monitor.legacy_variant st _ _) as [v1 | |] eqn:H1; [| | discriminate].
      * intros [= <-]. exact (legacy_variant_range st _ _ v1 H1).
      * destruct (Monitor.legacy_variant st "/sys/fs/cgroup/cpu,cpuacct/cpu.cfs_quota_us" _)
          as [v2 | |] eqn:H2; [| | discriminate].
        -- intros [= <-]. exact (legacy_variant_range st _ _ v2 H2).
        -- intros [= <-]. unfold INT32_MIN, INT32_MAX. lia.
  - intros H1 H2.
    rewrite (legacy_variant_absent st _ _ (or_intror H1)),
            (legacy_variant_absent st _ _ (or_intror H2)).
    pose proof (unified_millicores_closes_once st) as Hu.
    destruct (Monitor.unified_millicores st) as [u | |]; [| | congruence].
    + exists u. auto.
    + exists (-1). auto.
Qed.

Lemma cpu_limit_millicores_defined_witness :
  (INT32_MIN <= 4000 <= INT32_MAX)
  /\ exists v, Monitor.get_cpu_limit_millicores four_core_quota = Some v.
Proof.
  split.
  - apply (proj1 (cpu_limit_millicores_defined four_core_quota) 4000). reflexivity.
  - destruct (proj2 (cpu_limit_millicores_defined four_core_quota) eq_refl eq_refl)
      as (v & Hv & _).
    exists v. exact Hv.
Defined.

(** X15: on a host that reports at least one core, when [getloadavg]
    stores nothing [get_cpu_load] returns [+0.0]. *)
Theorem cpu_load_without_loadavg_is_zero st :
  0 < nprocs st -> loadavg st = None -> Lib.get_cpu_load st = fzero.
Proof.
  intros Hn Hl. unfold Lib.get_cpu_load, Lib.load0. rewrite Hl.
  apply fdiv_zero_positive.
  pose proof (cpu_limit_cores_positive st Hn) as Hpos.
  unfold Lib.cpu_load_divisor. now rewrite (fpositive_not_fle _ Hpos).
Qed.

Lemma cpu_load_without_loadavg_is_zero_witness :
  Lib.get_cpu_load four_core_quota = fzero.
Proof.
  apply cpu_load_without_loadavg_is_zero; reflexivity.
Defined.
